(** * httputils middleware: a shallow embedding and its properties

    The development follows the middleware file of package httputils:
    the logging, recovery and rate-limit middlewares.  Line numbers are
    those of that file.  Go values are embedded as

    - [string]                      as [String.string],
    - [time.Time], [time.Duration]  as [Z] nanoseconds,
    - [float64]                     as exact rationals [Q],
    - [map[string]T]                as [gmap string T],
    - [error] and panics            as explicit result types,
    - [http.Handler]                as a function on the response writer,
      the request and the state of the process.

    A critical section under the mutex [mu] is one atomic step taken at
    one reading of the clock; the variables a middleware closes over are
    passed explicitly, so an inner handler cannot reach them. *)

From Stdlib Require Import ZArith QArith Lqa Lia Ascii String List.
From stdpp Require Import base option list finite gmap strings.

Local Open Scope string_scope.
Local Open Scope Z_scope.

(** ** Errors *)

(** Go's [error] values, as far as the package builds them. *)
Inductive error : Type :=
| errorString (s : string)                (* errors.New(s) *)
| wrapError (msg : string) (err : error)  (* fmt.Errorf with one %w verb *)
| AddrError (Err Addr : string).          (* *net.AddrError *)

Module errors.

Definition New (text : string) : error := errorString text.

Definition Error (e : error) : string :=
  match e with
  | errorString s => s
  | wrapError msg _ => msg
  | AddrError why addr =>
      if String.eqb addr EmptyString then why else "address " +:+ addr +:+ ": " +:+ why
  end.

Definition Unwrap (e : error) : option error :=
  match e with
  | wrapError _ err => Some err
  | _ => None
  end.

Fixpoint error_eqb (a b : error) : bool :=
  match a, b with
  | errorString s, errorString t => String.eqb s t
  | wrapError m e, wrapError n f => String.eqb m n && error_eqb e f
  | AddrError w a, AddrError v b => String.eqb w v && String.eqb a b
  | _, _ => false
  end.

(** [errors.Is]: the target is found somewhere along the Unwrap chain. *)
Fixpoint Is (e target : error) : bool :=
  error_eqb e target ||
  match e with
  | wrapError _ err => Is err target
  | _ => false
  end.

End errors.

(** A value carried by [panic]; [recover] hands it back as [any]. *)
Inductive any : Type :=
| any_string (s : string)
| any_error (e : error).

Module fmt.

(** The [%s] verb. *)
Definition verb_s (v : any) : string :=
  match v with
  | any_string s => s
  | any_error e => errors.Error e
  end.

(** [fmt.Errorf("%w: %s", target, v)] *)
Definition Errorf_w_s (target : error) (v : any) : error :=
  wrapError (errors.Error target +:+ ": " +:+ verb_s v) target.

(** [fmt.Errorf(prefix + "%w", err)] *)
Definition Errorf_w (prefix : string) (err : error) : error :=
  wrapError (prefix +:+ errors.Error err) err.

End fmt.

(** ** Time *)

Module time.

(** Wall-clock instants and durations, both in nanoseconds. *)
Definition Time := Z.
Definition Duration := Z.

Definition Nanosecond : Duration := 1.
Definition Millisecond : Duration := 1000000.
Definition Second : Duration := 1000000000.
Definition Minute : Duration := 60 * Second.

(** [t.Sub(u)] *)
Definition Sub (t u : Time) : Duration := t - u.

(** [time.Since(t)] with the clock showing [now]. *)
Definition Since (now t : Time) : Duration := Sub now t.

(** [d.Milliseconds()]: integer division, truncated. *)
Definition Milliseconds (d : Duration) : Z := Z.quot d Millisecond.

(** [d.Seconds()] as an exact rational. *)
Definition Seconds (d : Duration) : Q := Qmake d 1000000000.

End time.

(** ** Strings as byte sequences *)

Module bytealg.

Fixpoint IndexByte (s : string) (c : ascii) : option nat :=
  match s with
  | EmptyString => None
  | String a s' =>
      if Ascii.eqb a c then Some O
      else match IndexByte s' c with
           | Some i => Some (S i)
           | None => None
           end
  end.

Fixpoint LastIndexByte (s : string) (c : ascii) : option nat :=
  match s with
  | EmptyString => None
  | String a s' =>
      match LastIndexByte s' c with
      | Some i => Some (S i)
      | None => if Ascii.eqb a c then Some O else None
      end
  end.

(** [s[from:]] *)
Definition from (s : string) (i : nat) : string :=
  String.substring i (String.length s - i) s.

(** [s[:to]] *)
Definition upto (s : string) (j : nat) : string :=
  String.substring 0 j s.

(** [s[i:j]] *)
Definition slice (s : string) (i j : nat) : string :=
  String.substring i (j - i) s.

End bytealg.

(** ** net.SplitHostPort *)

Module net.

Definition missingPort := "missing port in address".
Definition tooManyColons := "too many colons in address".

(** The three results of the Go function: host, port, err.  On an
    error both strings are empty. *)
Definition addrErr (addr why : string) : string * string * option error :=
  (EmptyString, EmptyString, Some (AddrError why addr)).

(** [s[i] == c]; false out of range, where Go would not get. *)
Definition byteIs (s : string) (i : nat) (c : ascii) : bool :=
  match String.get i s with
  | Some a => Ascii.eqb a c
  | None => false
  end.

Definition checkBrackets (hostport host : string) (i j k : nat)
  : string * string * option error :=
  if bytealg.IndexByte (bytealg.from hostport j) "[" is Some _ then
    addrErr hostport "unexpected '[' in address"
  else if bytealg.IndexByte (bytealg.from hostport k) "]" is Some _ then
    addrErr hostport "unexpected ']' in address"
  else (host, bytealg.from hostport (S i), None).

Definition SplitHostPort (hostport : string) : string * string * option error :=
  match bytealg.LastIndexByte hostport ":" with
  | None => addrErr hostport missingPort
  | Some i =>
      if byteIs hostport 0 "[" then
          match bytealg.IndexByte hostport "]" with
          | None => addrErr hostport "missing ']' in address"
          | Some e =>
              if Nat.eqb (S e) (String.length hostport) then
                addrErr hostport missingPort
              else if Nat.eqb (S e) i then
                checkBrackets hostport (bytealg.slice hostport 1 e) i 1 (S e)
              else if byteIs hostport (S e) ":" then
                addrErr hostport tooManyColons
              else addrErr hostport missingPort
          end
      else
        let host := bytealg.upto hostport i in
        if bytealg.IndexByte host ":" is Some _ then
          addrErr hostport tooManyColons
        else checkBrackets hostport host i 0 0
  end.

End net.

(** ** MIME headers *)

Module textproto.

Definition inRange (lo hi c : ascii) : bool :=
  (N_of_ascii lo <=? N_of_ascii c)%N && (N_of_ascii c <=? N_of_ascii hi)%N.

Definition isLower (c : ascii) : bool := inRange "a" "z" c.
Definition isUpper (c : ascii) : bool := inRange "A" "Z" c.
Definition isDigit (c : ascii) : bool := inRange "0" "9" c.

(** The bytes allowed in a header field name (RFC 7230 token). *)
Definition validHeaderFieldByte (c : ascii) : bool :=
  isLower c || isUpper c || isDigit c ||
  if bytealg.IndexByte "!#$%&'*+-.^_`|~" c is Some _ then true else false.

Definition toLower : N := 32.

(** The loop of [canonicalMIMEHeaderKey]: upper case for the first
    letter and for a letter after a dash, lower case elsewhere. *)
Fixpoint canonicalise (upper : bool) (a : string) : string :=
  match a with
  | EmptyString => EmptyString
  | String c a' =>
      let c' :=
        if upper && isLower c then ascii_of_N (N_of_ascii c - toLower)
        else if negb upper && isUpper c then ascii_of_N (N_of_ascii c + toLower)
        else c in
      String c' (canonicalise (Ascii.eqb c' "-") a')
  end.

Fixpoint allValid (a : string) : bool :=
  match a with
  | EmptyString => true
  | String c a' => validHeaderFieldByte c && allValid a'
  end.

(** A key that holds a byte outside the token alphabet is returned
    as it is. *)
Definition CanonicalMIMEHeaderKey (s : string) : string :=
  if allValid s then canonicalise true s else s.

(** [map[string][]string], keyed by canonical names. *)
Abbreviation MIMEHeader := (gmap string (list string)).

Definition Get (h : MIMEHeader) (key : string) : string :=
  match h !! CanonicalMIMEHeaderKey key with
  | Some (v :: _) => v
  | _ => EmptyString
  end.

Definition Set_ (h : MIMEHeader) (key value : string) : MIMEHeader :=
  <[CanonicalMIMEHeaderKey key := [value]]> h.

End textproto.

(** ** Request contexts *)

(** The keys under which the package stores request-scoped values.
    [LogRequestIDKey] is the package's own key; any other key of the
    program is an [otherKey]. *)
Inductive contextKey : Type :=
| LogRequestIDKey
| otherKey (name : string).

Module context.

(** A context is the chain of the values attached so far, innermost
    first. *)
Definition Context := list (contextKey * string).

Definition key_eqb (a b : contextKey) : bool :=
  match a, b with
  | LogRequestIDKey, LogRequestIDKey => true
  | otherKey m, otherKey n => String.eqb m n
  | _, _ => false
  end.

Definition WithValue (ctx : Context) (key : contextKey) (val : string) : Context :=
  (key, val) :: ctx.

Fixpoint Value (ctx : Context) (key : contextKey) : option string :=
  match ctx with
  | [] => None
  | (k, v) :: parent => if key_eqb k key then Some v else Value parent key
  end.

End context.

(** ** Structured logging *)

Module slog.

Inductive Value : Type :=
| StringValue (s : string)
| Int64Value (n : Z)
| Float64Value (x : Q).

Inductive Level : Type := LevelInfo | LevelError.

(** What a handler of the logger receives for one call. *)
Record Record_ : Type := mkRecord {
  RLevel : Level;
  Ctx : context.Context;
  Message : string;
  Attrs : list (string * Value)
}.

End slog.

(** ** UUIDs *)

Module uuid.

(** [type UUID [16]byte] *)
Inductive UUID : Type :=
| Bytes (b0 b1 b2 b3 b4 b5 b6 b7 b8 b9 b10 b11 b12 b13 b14 b15 : Byte.byte).

Definition hexDigit (n : N) : ascii :=
  match String.get (N.to_nat n) "0123456789abcdef" with
  | Some c => c
  | None => "0"%char
  end.

Definition hi (b : Byte.byte) : ascii := hexDigit (Byte.to_N b / 16).
Definition lo (b : Byte.byte) : ascii := hexDigit (Byte.to_N b mod 16).

Definition hex (b : Byte.byte) (rest : string) : string :=
  String (hi b) (String (lo b) rest).

Definition dash (rest : string) : string := String "-" rest.

(** [xxxxxxxx-xxxx-xxxx-xxxx-xxxxxxxxxxxx] *)
Definition String_ (u : UUID) : string :=
  match u with
  | Bytes b0 b1 b2 b3 b4 b5 b6 b7 b8 b9 b10 b11 b12 b13 b14 b15 =>
      hex b0 (hex b1 (hex b2 (hex b3 (dash
      (hex b4 (hex b5 (dash
      (hex b6 (hex b7 (dash
      (hex b8 (hex b9 (dash
      (hex b10 (hex b11 (hex b12 (hex b13 (hex b14 (hex b15 EmptyString)))))))))))))))))))
  end.



End uuid.

(** ** The state of the process *)

(** What the middlewares read and write outside their own variables:
    the wall clock, the records handed to the default logger, and the
    number of UUIDs the process has generated so far. *)
Record World : Type := mkWorld {
  clock : time.Time;
  logged : list slog.Record_;
  uuidsDrawn : nat
}.

Module Import process.

(** [time.Now()] *)
Definition Now (wd : World) : time.Time := clock wd.

(** [slog.InfoContext(ctx, msg, attrs...)] *)
Definition InfoContext (wd : World) (ctx : context.Context) (msg : string)
    (attrs : list (string * slog.Value)) : World :=
  {| clock := clock wd;
     logged := logged wd ++ [slog.mkRecord slog.LevelInfo ctx msg attrs];
     uuidsDrawn := uuidsDrawn wd |}.

(** [uuid.New()]: the generator yields its values in call order;
    [source n] is the value of call number [n]. *)
Definition New (source : nat -> uuid.UUID) (wd : World) : uuid.UUID * World :=
  (source (uuidsDrawn wd),
   {| clock := clock wd; logged := logged wd; uuidsDrawn := S (uuidsDrawn wd) |}).

End process.

(** ** Requests, response writers, handlers *)

Module http.

Record Request : Type := mkRequest {
  Method : string;
  URL : string;
  Header : textproto.MIMEHeader;
  RemoteAddr : string;
  Context : context.Context
}.

(** [r.WithContext(ctx)] *)
Definition WithContext (r : Request) (ctx : context.Context) : Request :=
  {| Method := Method r; URL := URL r; Header := Header r;
     RemoteAddr := RemoteAddr r; Context := ctx |}.

Definition StatusTooManyRequests : Z := 429.
Definition StatusInternalServerError : Z := 500.

(** One response emitted on a writer: its status and, for an error
    response, the error it reports. *)
Record Response : Type := mkResponse {
  StatusCode : Z;
  Cause : option error
}.

(** The state of an [http.ResponseWriter]: its header map and the
    responses emitted on it, oldest first. *)
Record ResponseWriter : Type := mkResponseWriter {
  WHeader : textproto.MIMEHeader;
  Written : list Response
}.

(** [w.Header().Set(key, value)] *)
Definition SetHeader (w : ResponseWriter) (key value : string) : ResponseWriter :=
  {| WHeader := textproto.Set_ (WHeader w) key value; Written := Written w |}.

Definition emit (w : ResponseWriter) (resp : Response) : ResponseWriter :=
  {| WHeader := WHeader w; Written := Written w ++ [resp] |}.

(** The result of [ServeHTTP]: the writer and the process as the call
    leaves them, and the value of the panic that ended it, if any. *)
Record Outcome : Type := mkOutcome {
  writer : ResponseWriter;
  world : World;
  panicked : option any
}.

(** [ServeHTTP(w, r)] *)
Definition Handler : Type := ResponseWriter -> Request -> World -> Outcome.

End http.

(** ** Response helpers of the package *)

(** Modelled from the spec: [ServerErrorResponse] belongs to package
    httputils and is not among the sources.  By section 6 it renders a
    server-error response, status 500, for the error it is given. *)
Definition ServerErrorResponse (w : http.ResponseWriter) (r : http.Request)
    (err : error) : http.ResponseWriter :=
  http.emit w (http.mkResponse http.StatusInternalServerError (Some err)).

(** Modelled from the spec: [RateLimitExceededResponse] belongs to
    package httputils and is not among the sources.  By section 6 it
    renders a rate-limit-exceeded response, status 429. *)
Definition RateLimitExceededResponse (w : http.ResponseWriter) (r : http.Request)
    : http.ResponseWriter :=
  http.emit w (http.mkResponse http.StatusTooManyRequests None).

(** ** Logging middleware (lines 18-50) *)

Definition ErrPanic : error := errors.New "panic".

Section Logging.

(** The values [uuid.New] returns, in call order. *)
Variable uuidSource : nat -> uuid.UUID.

(** Lines 25-33: the context of the request, with its identifier. *)
Definition requestContext (r : http.Request) (wd : World)
  : context.Context * World :=
  let RequestID := textproto.Get (http.Header r) "X-Request-ID" in
  let ctx := http.Context r in
  if negb (String.eqb RequestID EmptyString) then
    (context.WithValue ctx LogRequestIDKey ("ext-" +:+ RequestID), wd)
  else
    let '(id, wd') := New uuidSource wd in
    (context.WithValue ctx LogRequestIDKey (uuid.String_ id), wd').

(** Lines 40-48, reached when the inner handler has returned. *)
Definition completed (start : time.Time) (ctx : context.Context)
    (r : http.Request) (o : http.Outcome) : http.Outcome :=
  let duration := time.Since (Now (http.world o)) start in
  http.mkOutcome (http.writer o)
    (InfoContext (http.world o) ctx "request completed"
       [("request_method", slog.StringValue (http.Method r));
        ("request_url", slog.StringValue (http.URL r));
        ("duration", slog.Int64Value (time.Milliseconds duration))])
    None.

Definition LoggingMiddleware (next : http.Handler) : http.Handler :=
  fun w r wd =>
    let start := Now wd in
    let '(ctx, wd) := requestContext r wd in
    let wd := InfoContext wd ctx "request started" [] in
    let r := http.WithContext r ctx in
    let o := next w r wd in
    match http.panicked o with
    | Some _ => o
    | None => completed start ctx r o
    end.

(** The identifier the middleware attaches to [r] when the request
    arrives with the process in state [wd]. *)
Definition requestID (r : http.Request) (wd : World) : option string :=
  context.Value (requestContext r wd).1 LogRequestIDKey.

End Logging.

(** ** Recovery middleware (lines 52-64) *)

Definition RecoveryMiddleware (next : http.Handler) : http.Handler :=
  fun w r wd =>
    let o := next w r wd in
    match http.panicked o with
    | Some err =>
        let w1 := http.SetHeader (http.writer o) "Connection" "close" in
        let w2 := ServerErrorResponse w1 r (fmt.Errorf_w_s ErrPanic err) in
        http.mkOutcome w2 (http.world o) None
    | None => o
    end.

(** ** Token bucket *)

Module rate.

(** Modelled from the spec: the limiter of golang.org/x/time/rate is
    not among the sources.  By sections 3 and 4.1 it holds a capacity
    (burst), the current tokens, a rate in tokens per second and the
    instant of the last refill; tokens accumulate continuously at the
    rate, capped at the burst; a query consumes one token when at
    least one is available and changes nothing otherwise.  The zero
    [time.Time] is instant 0. *)
Record Limiter : Type := mkLimiter {
  limit : Q;
  burst : Z;
  tokens : Q;
  last : time.Time
}.

(** Modelled from the spec: a fresh limiter has a full bucket. *)
Definition NewLimiter (r : Q) (b : Z) : Limiter :=
  {| limit := r; burst := b; tokens := inject_Z b; last := 0 |}.

(** Modelled from the spec: the tokens available at instant [t]. *)
Definition advance (lim : Limiter) (t : time.Time) : Q :=
  let last := if t <? last lim then t else last lim in
  let elapsed := time.Sub t last in
  let delta := (limit lim * time.Seconds elapsed)%Q in
  let tokens := (tokens lim + delta)%Q in
  if Qle_bool tokens (inject_Z (burst lim)) then tokens
  else inject_Z (burst lim).

(** Modelled from the spec: [Allow] at instant [t]. *)
Definition Allow (lim : Limiter) (t : time.Time) : bool * Limiter :=
  let tokens := advance lim t in
  if Qle_bool 1 tokens then
    (true, {| limit := limit lim; burst := burst lim;
              tokens := (tokens - 1)%Q; last := t |})
  else (false, lim).

End rate.

(** ** Rate-limit configuration (lines 66-103) *)

Record RateLimitConfig : Type := mkRateLimitConfig {
  enabled : bool;
  rate : Q;
  burst : Z
}.

Definition defaultRateLimitRate : Z := 10.
Definition defaultRateLimitBurst : Z := 20.

(** A call that returns or panics. *)
Inductive Result (A : Type) : Type :=
| Returned (a : A)
| Panic (v : any).

Arguments Returned {A} a.
Arguments Panic {A} v.

(** The environment of the process. *)
Abbreviation Environ := (gmap string string).

(** ** Client entries and the critical sections *)

Record client : Type := mkClient {
  limiter : rate.Limiter;
  lastSeen : time.Time
}.

(** Lines 144-155, between [mu.Lock()] and the [mu.Unlock()] that
    follows the query: the entry of [ip] is created or its [lastSeen]
    refreshed, then its limiter is queried.  The clock shows [now]
    while the lock is held. *)
Definition allowClient (cfg : RateLimitConfig) (ip : string) (now : time.Time)
    (clients : gmap string client) : bool * gmap string client :=
  let c :=
    match clients !! ip with
    | None =>
        let limiter := rate.NewLimiter (rate cfg) (burst cfg) in
        {| limiter := limiter; lastSeen := now |}
    | Some c => {| limiter := limiter c; lastSeen := now |}
    end in
  let '(ok, lim) := rate.Allow (limiter c) now in
  (ok, <[ip := {| limiter := lim; lastSeen := lastSeen c |}]> clients).

(** Line 130: the entry is deleted. *)
Definition stale (now : time.Time) (c : client) : bool :=
  3 * time.Minute <? time.Since now (lastSeen c).

(** Lines 128-134, between [mu.Lock()] and [mu.Unlock()]. *)
Definition sweep (now : time.Time) (clients : gmap string client)
    : gmap string client :=
  filter (fun kc => stale now kc.2 = false) clients.

(** One turn of the loop of lines 125-135, entered when the clock shows
    [t]: sleep a minute, then sweep. *)
Definition reaperTurn (t : time.Time) (clients : gmap string client)
    : time.Time * gmap string client :=
  let t' := t + time.Minute in
  (t', sweep t' clients).

(** ** The handler of the rate-limit middleware (lines 138-165) *)

Definition rateLimitHandler (cfg : RateLimitConfig) (next : http.Handler)
    (clients : gmap string client)
    : http.ResponseWriter -> http.Request -> World ->
      gmap string client * http.Outcome :=
  fun w r wd =>
    let '(ip, _, err) := net.SplitHostPort (http.RemoteAddr r) in
    let w :=
      match err with
      | Some err =>
          ServerErrorResponse w r
            (fmt.Errorf_w "could not parse remote address: " err)
      | None => w
      end in
    let '(ok, clients) := allowClient cfg ip (Now wd) clients in
    if negb ok then
      (clients, http.mkOutcome (RateLimitExceededResponse w r) wd None)
    else
      (clients, next w r wd).

(** ** Construction (lines 78-136) *)

(** What [RateLimitMiddleware(next)] hands back. *)
Inductive Middleware : Type :=
| Next (next : http.Handler)                              (* line 109 *)
| Limited (cfg : RateLimitConfig) (next : http.Handler).  (* line 138 *)

Inductive goroutine : Type := reaper.

(** The handler returned, with what the call allocated and started. *)
Record Construction : Type := mkConstruction {
  handler : Middleware;
  store : option (gmap string client);   (* make(map[string]*client) *)
  started : list goroutine               (* go func() { ... }() *)
}.

(** [slog.Info(msg, attrs...)] *)
Definition slogInfo (wd : World) (msg : string) (attrs : list (string * slog.Value))
    : World :=
  InfoContext wd [] msg attrs.

Section Configuration.

(** Package parser is not among the sources; its three readers are
    parameters.  Each takes the environment, the name of a variable and
    a default. *)
Variable ParseEnvBool : Environ -> string -> bool -> bool.
Variable ParseEnvFloat64 : Environ -> string -> Q -> Q * option error.
Variable ParseEnvInt : Environ -> string -> Z -> Z * option error.

Definition getRateLimitConfig (env : Environ) : Result RateLimitConfig :=
  let rateLimitConfig :=
    {| enabled := ParseEnvBool env "RATE_LIMIT_ENABLED" true;
       rate := inject_Z defaultRateLimitRate;
       burst := defaultRateLimitBurst |} in
  if negb (enabled rateLimitConfig) then Returned rateLimitConfig
  else
    let '(rateLimit, err) :=
      ParseEnvFloat64 env "RATE_LIMIT_RATE" (rate rateLimitConfig) in
    match err with
    | Some err => Panic (any_error err)
    | None =>
        let rateLimitConfig :=
          {| enabled := enabled rateLimitConfig; rate := rateLimit;
             burst := burst rateLimitConfig |} in
        let '(burst_, err) :=
          ParseEnvInt env "RATE_LIMIT_BURST" (burst rateLimitConfig) in
        match err with
        | Some err => Panic (any_error err)
        | None =>
            Returned {| enabled := enabled rateLimitConfig;
                        rate := rate rateLimitConfig; burst := burst_ |}
        end
    end.

Definition RateLimitMiddleware (env : Environ) (next : http.Handler)
    (wd : World) : Result (Construction * World) :=
  match getRateLimitConfig env with
  | Panic v => Panic v
  | Returned rateLimitConfig =>
      if negb (enabled rateLimitConfig) then
        Returned ({| handler := Next next; store := None; started := [] |}, wd)
      else
        let wd :=
          slogInfo wd "rate limit middleware enabled"
            [("rate", slog.Float64Value (rate rateLimitConfig));
             ("burst", slog.Int64Value (burst rateLimitConfig))] in
        Returned ({| handler := Limited rateLimitConfig next;
                     store := Some ∅;
                     started := [reaper] |}, wd)
  end.

End Configuration.

(** [ServeHTTP] of the handler returned, over the map it closes over. *)
Definition ServeHTTP (m : Middleware) (clients : gmap string client)
    : http.ResponseWriter -> http.Request -> World ->
      gmap string client * http.Outcome :=
  match m with
  | Next next => fun w r wd => (clients, next w r wd)
  | Limited cfg next => rateLimitHandler cfg next clients
  end.

(** ** Schedules *)

(** The mutex [mu] makes the two critical sections atomic, so a run of
    the process is, for the map, a sequence of them in the order in
    which the lock was taken: a request of some identity, or a sweep of
    the reaper, each at the instant the clock shows. *)
Inductive action : Type :=
| Request (now : time.Time) (ip : string)
| Reap (now : time.Time).

(** The decisions of the requests, in order, and the map at the end. *)
Fixpoint run (cfg : RateLimitConfig) (clients : gmap string client)
    (sched : list action) : list (string * bool) * gmap string client :=
  match sched with
  | [] => ([], clients)
  | Request now ip :: sched' =>
      let '(ok, clients) := allowClient cfg ip now clients in
      let '(ds, clients) := run cfg clients sched' in
      ((ip, ok) :: ds, clients)
  | Reap now :: sched' => run cfg (sweep now clients) sched'
  end.

(** The decisions taken for one identity. *)
Definition decisionsOf (ip : string) (ds : list (string * bool)) : list bool :=
  snd <$> filter (fun d => d.1 = ip) ds.

(** What a schedule holds for one identity: its requests and the sweeps. *)
Definition concerns (ip : string) (a : action) : bool :=
  match a with
  | Request _ ip' => bool_decide (ip' = ip)
  | Reap _ => true
  end.

Definition countAllowed (ds : list (string * bool)) : nat :=
  length (filter (fun d => d.2 = true) ds).

Definition countDenied (ds : list (string * bool)) : nat :=
  length (filter (fun d => d.2 = false) ds).

(** [n] requests of one identity at one instant. *)
Definition immediate (n : nat) (now : time.Time) (ip : string) : list action :=
  replicate n (Request now ip).

(** ** A reader of the environment *)

Module parser.

(** Modelled from the spec: package parser is not among the sources.
    By sections 6 and 7 a reader returns the default when the variable
    is not set, the value when it is set and well formed, and, for the
    two numeric readers, an error when it is set and not numeric.  The
    numerals accepted here are the decimal ones. *)
Definition ErrSyntax : error := errors.New "invalid syntax".

Fixpoint digits (acc : Z) (s : string) : option Z :=
  match s with
  | EmptyString => Some acc
  | String c s' =>
      if textproto.isDigit c then
        digits (10 * acc + Z.of_N (N_of_ascii c - N_of_ascii "0")) s'
      else None
  end.

Definition natural (s : string) : option Z :=
  match s with
  | EmptyString => None
  | _ => digits 0 s
  end.

Definition integer (s : string) : option Z :=
  match s with
  | String c s' =>
      if Ascii.eqb c "-" then Z.opp <$> natural s' else natural s
  | EmptyString => None
  end.

Definition decimal (s : string) : option Q :=
  match bytealg.IndexByte s "." with
  | None => inject_Z <$> integer s
  | Some i =>
      let frac := bytealg.from s (S i) in
      match integer (bytealg.upto s i), natural frac with
      | Some n, Some f =>
          let scale := Z.pow 10 (Z.of_nat (String.length frac)) in
          let f := if n <? 0 then - f else f in
          Some (Qmake (n * scale + f) (Z.to_pos scale))
      | _, _ => None
      end
  end.

Definition ParseEnvBool (env : Environ) (key : string) (defaultValue : bool)
    : bool :=
  match env !! key with
  | None => defaultValue
  | Some v =>
      if String.eqb v "true" then true
      else if String.eqb v "false" then false
      else defaultValue
  end.

Definition ParseEnvFloat64 (env : Environ) (key : string) (defaultValue : Q)
    : Q * option error :=
  match env !! key with
  | None => (defaultValue, None)
  | Some v =>
      match decimal v with
      | Some x => (x, None)
      | None => (0%Q, Some ErrSyntax)
      end
  end.

Definition ParseEnvInt (env : Environ) (key : string) (defaultValue : Z)
    : Z * option error :=
  match env !! key with
  | None => (defaultValue, None)
  | Some v =>
      match integer v with
      | Some n => (n, None)
      | None => (0, Some ErrSyntax)
      end
  end.

End parser.

(** ** Authentication middleware (lines 168-176) *)

(** [type UnauthorizedRedirector func(w, r, destURL)] *)
Definition UnauthorizedRedirector : Type :=
  http.ResponseWriter -> http.Request -> string -> World -> http.Outcome.

Definition GetStateAwareAuthenticationMiddleware (_ : UnauthorizedRedirector)
    : http.Handler -> http.Handler :=
  fun next => fun w r wd => next w r wd.

(** ** The reaper goroutine (lines 124-136) *)

(** The first [turns] turns of the loop [for { ... }], entered when the
    clock shows [t], with no request in between. *)
Fixpoint reaperLoop (turns : nat) (t : time.Time) (clients : gmap string client)
    : time.Time * gmap string client :=
  match turns with
  | O => (t, clients)
  | S turns =>
      let '(t, clients) := reaperTurn t clients in
      reaperLoop turns t clients
  end.

(** ** Test helpers (package testutils) *)

Module json.

Local Unset Elimination Schemes.

(** The values [json.Unmarshal] stores in an [interface{}]. *)
Inductive value : Type :=
| Nil
| Bool (b : bool)
| Float64 (x : Q)
| Str (s : string)
| Slice (l : list value)
| Map (m : gmap string value).

Local Set Elimination Schemes.

(** The dynamic type, as the runtime prints it. *)
Definition typeName (v : value) : string :=
  match v with
  | Nil => "nil"
  | Bool _ => "bool"
  | Float64 _ => "float64"
  | Str _ => "string"
  | Slice _ => "[]interface {}"
  | Map _ => "map[string]interface {}"
  end.

(** [m[key]] in an expression: the zero value for a missing key. *)
Definition index (m : gmap string value) (key : string) : value :=
  default Nil (m !! key).

(** [v, ok := m[key]] *)
Definition lookup2 (m : gmap string value) (key : string) : value * bool :=
  match m !! key with
  | Some v => (v, true)
  | None => (Nil, false)
  end.

(** [v == s] for an interface value and a string. *)
Definition eqString (v : value) (s : string) : bool :=
  match v with
  | Str s' => String.eqb s' s
  | _ => false
  end.

End json.

Module testing.

(** A [*testing.T]: whether the test has failed, and what it logged,
    each entry a format with its arguments. *)
Record T : Type := mkT {
  failed : bool;
  output : list (string * list json.value)
}.

(** [t.Errorf(format, args...)] *)
Definition Errorf (t : T) (format : string) (args : list json.value) : T :=
  {| failed := true; output := output t ++ [(format, args)] |}.

End testing.

Module testutils.

(** Lines 54-70 of [http.go]. *)
Definition AssertError (t : testing.T) (resp : gmap string json.value)
    (expectedErrorField expectedErrorMessage : string) : Result testing.T :=
  match json.index resp "errors" with
  | json.Slice l =>
      match l with
      | [] =>
          Panic (any_error
                   (errorString "runtime error: index out of range [0] with length 0"))
      | first :: _ =>
          let '(err, ok) :=
            match first with
            | json.Map m => (m, true)
            | _ => (∅, false)
            end in
          let t :=
            if negb ok then
              testing.Errorf t "expected error; got %v" [json.Map resp]
            else t in
          let '(errorKey, ok) := json.lookup2 err "field" in
          let t :=
            if negb ok || negb (json.eqString errorKey expectedErrorField) then
              testing.Errorf t "expected error field %s; got %v"
                [json.Str expectedErrorField; json.Map resp]
            else t in
          let '(errorMessage, ok) := json.lookup2 err "message" in
          let t :=
            if negb ok || negb (json.eqString errorMessage expectedErrorMessage) then
              testing.Errorf t "expected error message %s; got %v"
                [json.Str expectedErrorMessage; json.Map resp]
            else t in
          Returned t
      end
  | v =>
      Panic (any_error
               (errorString ("interface conversion: interface {} is "
                             +:+ json.typeName v +:+ ", not []interface {}")))
  end.

End testutils.

(** The requests of one identity at the given instants. *)
Definition requestsAt (ip : string) (instants : list time.Time) : list action :=
  (fun t => Request t ip) <$> instants.

(** The identities that send a request in a schedule. *)
Fixpoint identities (sched : list action) : gset string :=
  match sched with
  | [] => ∅
  | Request _ ip :: sched => {[ip]} ∪ identities sched
  | Reap _ :: sched => identities sched
  end.

(** The object that [AssertError] examines: the first of the errors
    when it is an object, the nil map otherwise. *)
Definition firstError (first : json.value) : gmap string json.value :=
  match first with
  | json.Map m => m
  | _ => ∅
  end.

Definition isObject (first : json.value) : bool :=
  match first with
  | json.Map _ => true
  | _ => false
  end.

(** The number of checks of [AssertError] that the first error fails. *)
Definition mismatches (first : json.value) (field message : string) : nat :=
  ((if isObject first then 0 else 1)
   + (if json.eqString (json.index (firstError first) "field") field
      then 0 else 1)
   + (if json.eqString (json.index (firstError first) "message") message
      then 0 else 1))%nat.

(** A response body with one error. *)
Definition errorBody (field message : string) : gmap string json.value :=
  {["errors" :=
      json.Slice
        [json.Map (<["field" := json.Str field]>
                     {["message" := json.Str message]})]]}.

Definition t0 : testing.T := {| testing.failed := false; testing.output := [] |}.

(** The rate and the burst are overridden. *)
Definition envOverrides : Environ :=
  <["RATE_LIMIT_RATE" := "2.5"]> (<["RATE_LIMIT_BURST" := "5"]> ∅).

(** Both numeric variables hold words; the flag is not set. *)
Definition envBothInvalid : Environ :=
  <["RATE_LIMIT_RATE" := "fast"]> (<["RATE_LIMIT_BURST" := "many"]> ∅).

(** Only the burst holds a word. *)
Definition envBurstInvalid : Environ := <["RATE_LIMIT_BURST" := "many"]> ∅.

(** ** What the inner handler finds *)

(** An application handler that answers with the identifier it finds in
    the context of the request it is given, in the header
    [X-Request-Id] of the response. *)
Definition echoIDHandler : http.Handler :=
  fun w r wd =>
    let id := default EmptyString
                (context.Value (http.Context r) LogRequestIDKey) in
    http.mkOutcome (http.SetHeader w "X-Request-ID" id) wd None.

(** The identifier that the inner handler finds when the logging
    middleware serves [r]: what [echoIDHandler] answers. *)
Definition identifierSeen (source : nat -> uuid.UUID) (w : http.ResponseWriter)
    (r : http.Request) (wd : World) : string :=
  textproto.Get
    (http.WHeader
       (http.writer (LoggingMiddleware source echoIDHandler w r wd)))
    "X-Request-ID".

(** ** Sample values *)

(** An application handler that answers 200 and returns. *)
Definition okHandler : http.Handler :=
  fun w r wd => http.mkOutcome (http.emit w (http.mkResponse 200 None)) wd None.

(** An application handler that panics with the string it is given. *)
Definition panicHandler (msg : string) : http.Handler :=
  fun w r wd => http.mkOutcome w wd (Some (any_string msg)).

Definition world0 : World := {| clock := 0; logged := []; uuidsDrawn := 0 |}.

Definition writer0 : http.ResponseWriter :=
  {| http.WHeader := ∅; http.Written := [] |}.

(** A GET request from the given remote address. *)
Definition requestFrom (addr : string) : http.Request :=
  {| http.Method := "GET"; http.URL := "/tenants"; http.Header := ∅;
     http.RemoteAddr := addr; http.Context := [] |}.

(** A GET request that carries the given [X-Request-Id]. *)
Definition requestWithID (id : string) : http.Request :=
  {| http.Method := "GET"; http.URL := "/tenants";
     http.Header := {["X-Request-Id" := [id]]};
     http.RemoteAddr := "192.0.2.1:4711"; http.Context := [] |}.

(** A generator whose first 256 values differ in their last byte. *)
Definition sampleSource (n : nat) : uuid.UUID :=
  let z := Byte.x00 in
  uuid.Bytes z z z z z z Byte.x40 z Byte.x80 z z z z z z
    (default z (Byte.of_N (N.of_nat n mod 256))).

Definition worldAfter (n : nat) : World :=
  {| clock := 0; logged := []; uuidsDrawn := n |}.


(** The configuration without overrides. *)
Definition defaultConfig : RateLimitConfig :=
  {| enabled := true; rate := inject_Z defaultRateLimitRate;
     burst := defaultRateLimitBurst |}.

(** Burst 2, one token per second. *)
Definition smallConfig : RateLimitConfig :=
  {| enabled := true; rate := 1; burst := 2 |}.

(** Burst 1, no refill. *)
Definition singleConfig : RateLimitConfig :=
  {| enabled := true; rate := 0; burst := 1 |}.

(** Three requests of one identity within a second, a request of
    another identity and a sweep among them. *)
Definition contended : list action :=
  [Request 5 "192.0.2.1"; Reap 7; Request 7 "192.0.2.1";
   Request 900 "192.0.2.1"].

Definition contendedMixed : list action :=
  [Request 5 "192.0.2.1"; Request 6 "198.51.100.9"; Reap 7;
   Request 7 "192.0.2.1"; Request 8 "198.51.100.9";
   Request 900 "192.0.2.1"].

(** An entry last seen at instant 0 and one last seen four minutes
    later. *)
Definition oneClient : gmap string client :=
  <["198.51.100.9" := {| limiter := rate.NewLimiter 10 20;
                         lastSeen := 4 * time.Minute |}]> ∅.

Definition twoClients : gmap string client :=
  <["192.0.2.1" := {| limiter := rate.NewLimiter 10 20; lastSeen := 0 |}]>
    oneClient.

(** The flag is off and both numeric variables hold words. *)
Definition envDisabledInvalid : Environ :=
  <["RATE_LIMIT_ENABLED" := "false"]>
    (<["RATE_LIMIT_RATE" := "fast"]> (<["RATE_LIMIT_BURST" := "many"]> ∅)).

(** The flag is on and the rate holds a word. *)
Definition envEnabledInvalid : Environ :=
  <["RATE_LIMIT_ENABLED" := "true"]> (<["RATE_LIMIT_RATE" := "fast"]> ∅).

(** ** Predicates of the statements *)

(** The time the bucket has been refilling for, at instant [t]. *)
Definition elapsed (lim : rate.Limiter) (t : time.Time) : time.Duration :=
  time.Sub t (if t <? rate.last lim then t else rate.last lim).

(** A limiter of rate [R] and burst [B], last refilled at [t0], holding
    [x] tokens. *)
Definition bucket (lim : rate.Limiter) (R : Q) (B : Z) (t0 : time.Time) (x : Q)
    : Prop :=
  rate.limit lim = R /\ rate.burst lim = B /\ rate.last lim = t0
  /\ (rate.tokens lim == x)%Q.

(** The map holds, for [ip], an entry whose limiter is such a bucket. *)
Definition entry (clients : gmap string client) (ip : string) (R : Q) (B : Z)
    (t0 : time.Time) (x : Q) : Prop :=
  exists c, clients !! ip = Some c /\ bucket (limiter c) R B t0 x.

Definition isRequest (a : action) : bool :=
  match a with
  | Request _ _ => true
  | Reap _ => false
  end.

(** The number of requests in a schedule. *)
Definition requests (sched : list action) : nat :=
  length (filter isRequest sched).

(** No sweep of the schedule falls more than three minutes after one of
    its requests: the requests are in flight together, and no entry they
    touch grows stale. *)
Definition noEviction (sched : list action) : Prop :=
  forall s t ip,
    Reap s ∈ sched -> Request t ip ∈ sched -> s - t <= 3 * time.Minute.

(** The values of [byte], and with them the values of [[16]byte]. *)
Definition allBytes : list Byte.byte :=
  [
   Byte.x00; Byte.x01; Byte.x02; Byte.x03; Byte.x04; Byte.x05; Byte.x06; Byte.x07;
   Byte.x08; Byte.x09; Byte.x0a; Byte.x0b; Byte.x0c; Byte.x0d; Byte.x0e; Byte.x0f;
   Byte.x10; Byte.x11; Byte.x12; Byte.x13; Byte.x14; Byte.x15; Byte.x16; Byte.x17;
   Byte.x18; Byte.x19; Byte.x1a; Byte.x1b; Byte.x1c; Byte.x1d; Byte.x1e; Byte.x1f;
   Byte.x20; Byte.x21; Byte.x22; Byte.x23; Byte.x24; Byte.x25; Byte.x26; Byte.x27;
   Byte.x28; Byte.x29; Byte.x2a; Byte.x2b; Byte.x2c; Byte.x2d; Byte.x2e; Byte.x2f;
   Byte.x30; Byte.x31; Byte.x32; Byte.x33; Byte.x34; Byte.x35; Byte.x36; Byte.x37;
   Byte.x38; Byte.x39; Byte.x3a; Byte.x3b; Byte.x3c; Byte.x3d; Byte.x3e; Byte.x3f;
   Byte.x40; Byte.x41; Byte.x42; Byte.x43; Byte.x44; Byte.x45; Byte.x46; Byte.x47;
   Byte.x48; Byte.x49; Byte.x4a; Byte.x4b; Byte.x4c; Byte.x4d; Byte.x4e; Byte.x4f;
   Byte.x50; Byte.x51; Byte.x52; Byte.x53; Byte.x54; Byte.x55; Byte.x56; Byte.x57;
   Byte.x58; Byte.x59; Byte.x5a; Byte.x5b; Byte.x5c; Byte.x5d; Byte.x5e; Byte.x5f;
   Byte.x60; Byte.x61; Byte.x62; Byte.x63; Byte.x64; Byte.x65; Byte.x66; Byte.x67;
   Byte.x68; Byte.x69; Byte.x6a; Byte.x6b; Byte.x6c; Byte.x6d; Byte.x6e; Byte.x6f;
   Byte.x70; Byte.x71; Byte.x72; Byte.x73; Byte.x74; Byte.x75; Byte.x76; Byte.x77;
   Byte.x78; Byte.x79; Byte.x7a; Byte.x7b; Byte.x7c; Byte.x7d; Byte.x7e; Byte.x7f;
   Byte.x80; Byte.x81; Byte.x82; Byte.x83; Byte.x84; Byte.x85; Byte.x86; Byte.x87;
   Byte.x88; Byte.x89; Byte.x8a; Byte.x8b; Byte.x8c; Byte.x8d; Byte.x8e; Byte.x8f;
   Byte.x90; Byte.x91; Byte.x92; Byte.x93; Byte.x94; Byte.x95; Byte.x96; Byte.x97;
   Byte.x98; Byte.x99; Byte.x9a; Byte.x9b; Byte.x9c; Byte.x9d; Byte.x9e; Byte.x9f;
   Byte.xa0; Byte.xa1; Byte.xa2; Byte.xa3; Byte.xa4; Byte.xa5; Byte.xa6; Byte.xa7;
   Byte.xa8; Byte.xa9; Byte.xaa; Byte.xab; Byte.xac; Byte.xad; Byte.xae; Byte.xaf;
   Byte.xb0; Byte.xb1; Byte.xb2; Byte.xb3; Byte.xb4; Byte.xb5; Byte.xb6; Byte.xb7;
   Byte.xb8; Byte.xb9; Byte.xba; Byte.xbb; Byte.xbc; Byte.xbd; Byte.xbe; Byte.xbf;
   Byte.xc0; Byte.xc1; Byte.xc2; Byte.xc3; Byte.xc4; Byte.xc5; Byte.xc6; Byte.xc7;
   Byte.xc8; Byte.xc9; Byte.xca; Byte.xcb; Byte.xcc; Byte.xcd; Byte.xce; Byte.xcf;
   Byte.xd0; Byte.xd1; Byte.xd2; Byte.xd3; Byte.xd4; Byte.xd5; Byte.xd6; Byte.xd7;
   Byte.xd8; Byte.xd9; Byte.xda; Byte.xdb; Byte.xdc; Byte.xdd; Byte.xde; Byte.xdf;
   Byte.xe0; Byte.xe1; Byte.xe2; Byte.xe3; Byte.xe4; Byte.xe5; Byte.xe6; Byte.xe7;
   Byte.xe8; Byte.xe9; Byte.xea; Byte.xeb; Byte.xec; Byte.xed; Byte.xee; Byte.xef;
   Byte.xf0; Byte.xf1; Byte.xf2; Byte.xf3; Byte.xf4; Byte.xf5; Byte.xf6; Byte.xf7;
   Byte.xf8; Byte.xf9; Byte.xfa; Byte.xfb; Byte.xfc; Byte.xfd; Byte.xfe; Byte.xff
  ].

Definition allUUIDs : list uuid.UUID :=
  b0 ← allBytes; b1 ← allBytes; b2 ← allBytes; b3 ← allBytes;
  b4 ← allBytes; b5 ← allBytes; b6 ← allBytes; b7 ← allBytes;
  b8 ← allBytes; b9 ← allBytes; b10 ← allBytes; b11 ← allBytes;
  b12 ← allBytes; b13 ← allBytes; b14 ← allBytes; b15 ← allBytes;
  [uuid.Bytes b0 b1 b2 b3 b4 b5 b6 b7 b8 b9 b10 b11 b12 b13 b14 b15].

(** * Properties *)

Example SplitHostPort_ipv4 :
  net.SplitHostPort "192.0.2.1:1234" = ("192.0.2.1", "1234", None).
Proof. reflexivity. Qed.

Example SplitHostPort_ipv6 :
  net.SplitHostPort "[::1]:80" = ("::1", "80", None).
Proof. reflexivity. Qed.

Example SplitHostPort_no_port :
  net.SplitHostPort "192.0.2.1"
  = ("", "", Some (AddrError "missing port in address" "192.0.2.1")).
Proof. reflexivity. Qed.

Example SplitHostPort_colons :
  net.SplitHostPort "::1:80"
  = ("", "", Some (AddrError "too many colons in address" "::1:80")).
Proof. reflexivity. Qed.

(** ** Configuration and construction *)

Section ConfigurationFacts.

Variable ParseEnvBool : Environ -> string -> bool -> bool.
Variable ParseEnvFloat64 : Environ -> string -> Q -> Q * option error.
Variable ParseEnvInt : Environ -> string -> Z -> Z * option error.

Let config := getRateLimitConfig ParseEnvBool ParseEnvFloat64 ParseEnvInt.
Let construct := RateLimitMiddleware ParseEnvBool ParseEnvFloat64 ParseEnvInt.

Lemma getRateLimitConfig_disabled env :
  ParseEnvBool env "RATE_LIMIT_ENABLED" true = false ->
  config env
  = Returned {| enabled := false; rate := inject_Z 10; burst := 20 |}.
Proof.
  intros Hflag. unfold config, getRateLimitConfig. cbn. by rewrite Hflag.
Qed.

Lemma getRateLimitConfig_enabled env cfg :
  config env = Returned cfg -> enabled cfg = ParseEnvBool env "RATE_LIMIT_ENABLED" true.
Proof.
  unfold config, getRateLimitConfig. cbn.
  destruct (ParseEnvBool env "RATE_LIMIT_ENABLED" true) eqn:Hflag; cbn.
  - destruct (ParseEnvFloat64 _ _ _) as [x [e|]]; [done|].
    destruct (ParseEnvInt _ _ _) as [n [e|]]; [done|].
    by intros [= <-].
  - by intros [= <-].
Qed.

Lemma getRateLimitConfig_rate_error env x e :
  ParseEnvBool env "RATE_LIMIT_ENABLED" true = true ->
  ParseEnvFloat64 env "RATE_LIMIT_RATE" (inject_Z 10) = (x, Some e) ->
  config env = Panic (any_error e).
Proof.
  intros Hflag Hrate. unfold config, getRateLimitConfig. cbn.
  rewrite Hflag. cbn. unfold defaultRateLimitRate. by rewrite Hrate.
Qed.

Lemma getRateLimitConfig_burst_error env x n e :
  ParseEnvBool env "RATE_LIMIT_ENABLED" true = true ->
  ParseEnvFloat64 env "RATE_LIMIT_RATE" (inject_Z 10) = (x, None) ->
  ParseEnvInt env "RATE_LIMIT_BURST" 20 = (n, Some e) ->
  config env = Panic (any_error e).
Proof.
  intros Hflag Hrate Hburst. unfold config, getRateLimitConfig. cbn.
  rewrite Hflag. cbn. unfold defaultRateLimitRate, defaultRateLimitBurst.
  by rewrite Hrate, Hburst.
Qed.

Lemma RateLimitMiddleware_panics env next wd v :
  config env = Panic v -> construct env next wd = Panic v.
Proof.
  unfold construct, RateLimitMiddleware, config. by intros ->.
Qed.

Lemma RateLimitMiddleware_disabled env cfg next wd :
  config env = Returned cfg ->
  enabled cfg = false ->
  construct env next wd
  = Returned ({| handler := Next next; store := None; started := [] |}, wd).
Proof.
  intros Hcfg Hoff.
  unfold construct, RateLimitMiddleware. fold config. rewrite Hcfg.
  by rewrite Hoff.
Qed.

(** C2: with a disabled configuration the constructor hands back the
    inner handler itself: serving a request through what it returns is
    serving it through the inner handler, with the same writer, request
    and process state; no map is allocated, no goroutine is started,
    and nothing is logged. *)
Theorem disabled_is_pass_through env cfg next wd :
  config env = Returned cfg ->
  enabled cfg = false ->
  construct env next wd
  = Returned ({| handler := Next next; store := None; started := [] |}, wd)
  /\ forall clients w r wd',
       ServeHTTP (Next next) clients w r wd' = (clients, next w r wd').
Proof.
  intros Hcfg Hoff. split; [|done].
  by apply (RateLimitMiddleware_disabled env cfg).
Qed.

(** C10: with the flag false neither numeric variable is read: whatever
    the two numeric readers would answer, errors included, the
    configuration returned is disabled with rate 10 and burst 20, and
    construction returns. *)
Theorem disabled_skips_numeric_parsing env next wd :
  ParseEnvBool env "RATE_LIMIT_ENABLED" true = false ->
  config env
  = Returned {| enabled := false; rate := inject_Z 10; burst := 20 |}
  /\ construct env next wd
     = Returned ({| handler := Next next; store := None; started := [] |}, wd).
Proof.
  intros Hflag.
  pose proof (getRateLimitConfig_disabled env Hflag) as Hcfg.
  split; [done|].
  by apply (RateLimitMiddleware_disabled env _ next wd Hcfg).
Qed.

(** C8, as amended: when the flag is on, an invalid value in the rate
    or in the burst variable makes construction panic; and when none of
    the three variables is set, for readers that return their default
    then, the configuration is enabled with rate 10 and burst 20. *)
Theorem invalid_numeric_value_is_fatal_when_enabled :
  (forall env next wd,
     ParseEnvBool env "RATE_LIMIT_ENABLED" true = true ->
     (ParseEnvFloat64 env "RATE_LIMIT_RATE" (inject_Z 10)).2 <> None
     \/ (ParseEnvInt env "RATE_LIMIT_BURST" 20).2 <> None ->
     exists v, construct env next wd = Panic v)
  /\ (forall env,
       (forall key d, env !! key = None -> ParseEnvBool env key d = d) ->
       (forall key d, env !! key = None -> ParseEnvFloat64 env key d = (d, None)) ->
       (forall key d, env !! key = None -> ParseEnvInt env key d = (d, None)) ->
       env !! "RATE_LIMIT_ENABLED" = None ->
       env !! "RATE_LIMIT_RATE" = None ->
       env !! "RATE_LIMIT_BURST" = None ->
       config env
       = Returned {| enabled := true; rate := inject_Z 10; burst := 20 |}).
Proof.
  split.
  - intros env next wd Hflag Hbad.
    destruct (ParseEnvFloat64 env "RATE_LIMIT_RATE" (inject_Z 10))
      as [x [e|]] eqn:Hrate.
    + exists (any_error e). apply RateLimitMiddleware_panics.
      by apply (getRateLimitConfig_rate_error env x e).
    + destruct (ParseEnvInt env "RATE_LIMIT_BURST" 20) as [n [e|]] eqn:Hburst.
      * exists (any_error e). apply RateLimitMiddleware_panics.
        by apply (getRateLimitConfig_burst_error env x n e).
      * cbn in Hbad. by destruct Hbad.
  - intros env Hbool Hfloat Hint Hflag Hrate Hburst.
    unfold config, getRateLimitConfig. cbn.
    rewrite (Hbool _ _ Hflag). cbn.
    unfold defaultRateLimitRate, defaultRateLimitBurst.
    by rewrite (Hfloat _ _ Hrate), (Hint _ _ Hburst).
Qed.

End ConfigurationFacts.

Lemma disabled_is_pass_through_witness :
  getRateLimitConfig parser.ParseEnvBool parser.ParseEnvFloat64
    parser.ParseEnvInt envDisabledInvalid
  = Returned {| enabled := false; rate := inject_Z 10; burst := 20 |}
  /\ RateLimitMiddleware parser.ParseEnvBool parser.ParseEnvFloat64
       parser.ParseEnvInt envDisabledInvalid okHandler world0
     = Returned ({| handler := Next okHandler; store := None; started := [] |},
                 world0).
Proof.
  split; [reflexivity|].
  apply (disabled_is_pass_through parser.ParseEnvBool parser.ParseEnvFloat64
           parser.ParseEnvInt envDisabledInvalid
           {| enabled := false; rate := inject_Z 10; burst := 20 |}
           okHandler world0); reflexivity.
Defined.

Lemma disabled_skips_numeric_parsing_witness :
  parser.ParseEnvBool envDisabledInvalid "RATE_LIMIT_ENABLED" true = false
  /\ (parser.ParseEnvFloat64 envDisabledInvalid "RATE_LIMIT_RATE" (inject_Z 10)).2
     = Some parser.ErrSyntax
  /\ (parser.ParseEnvInt envDisabledInvalid "RATE_LIMIT_BURST" 20).2
     = Some parser.ErrSyntax
  /\ getRateLimitConfig parser.ParseEnvBool parser.ParseEnvFloat64
       parser.ParseEnvInt envDisabledInvalid
     = Returned {| enabled := false; rate := inject_Z 10; burst := 20 |}.
Proof.
  split; [reflexivity|]. split; [reflexivity|]. split; [reflexivity|].
  apply (disabled_skips_numeric_parsing parser.ParseEnvBool
           parser.ParseEnvFloat64 parser.ParseEnvInt envDisabledInvalid
           okHandler world0).
  reflexivity.
Defined.

(** C8, as stated, fails: the rate variable holds an invalid value, yet
    construction returns, because the flag is off. *)
Lemma invalid_numeric_value_not_always_fatal :
  (parser.ParseEnvFloat64 envDisabledInvalid "RATE_LIMIT_RATE" (inject_Z 10)).2
  = Some parser.ErrSyntax
  /\ RateLimitMiddleware parser.ParseEnvBool parser.ParseEnvFloat64
       parser.ParseEnvInt envDisabledInvalid okHandler world0
     = Returned ({| handler := Next okHandler; store := None; started := [] |},
                 world0).
Proof. split; reflexivity. Qed.

Lemma invalid_numeric_value_is_fatal_when_enabled_witness :
  parser.ParseEnvBool envEnabledInvalid "RATE_LIMIT_ENABLED" true = true
  /\ (exists v,
        RateLimitMiddleware parser.ParseEnvBool parser.ParseEnvFloat64
          parser.ParseEnvInt envEnabledInvalid okHandler world0 = Panic v)
  /\ getRateLimitConfig parser.ParseEnvBool parser.ParseEnvFloat64
       parser.ParseEnvInt ∅
     = Returned {| enabled := true; rate := inject_Z 10; burst := 20 |}.
Proof.
  pose proof (invalid_numeric_value_is_fatal_when_enabled parser.ParseEnvBool
                parser.ParseEnvFloat64 parser.ParseEnvInt) as [Hfatal Hdefault].
  split; [reflexivity|]. split.
  - apply (Hfatal envEnabledInvalid okHandler world0); [reflexivity|].
    left. discriminate.
  - apply (Hdefault ∅); reflexivity.
Defined.

(** ** Recovery *)

Lemma Errorf_w_s_Is target v : errors.Is (fmt.Errorf_w_s target v) target = true.
Proof.
  assert (Hrefl : forall e, errors.error_eqb e e = true).
  { induction e as [s|m e IH|a b]; cbn; rewrite ?String.eqb_refl; auto. }
  cbn. rewrite (proj2 (orb_true_iff _ _)); [done|]. right.
  destruct target; cbn; rewrite ?Hrefl, ?String.eqb_refl; done.
Qed.

(** C6: when the inner handler panics with a value [v], the recovery
    middleware returns normally; on the writer as the inner handler left
    it, it sets [Connection: close] and emits one response, of status
    500, for an error that wraps [ErrPanic] and reads "panic: v"; the
    process state is as the inner handler left it.  When the inner
    handler returns, the outcome is the inner handler's. *)
Theorem recovery_contains_panics next w r wd :
  (forall v,
     http.panicked (next w r wd) = Some v ->
     let o := next w r wd in
     let e := fmt.Errorf_w_s ErrPanic v in
     let o' := RecoveryMiddleware next w r wd in
     http.panicked o' = None
     /\ http.world o' = http.world o
     /\ textproto.Get (http.WHeader (http.writer o')) "Connection" = "close"
     /\ http.Written (http.writer o')
        = (http.Written (http.writer o)
           ++ [http.mkResponse http.StatusInternalServerError (Some e)])%list
     /\ http.StatusInternalServerError = 500
     /\ errors.Is e ErrPanic = true
     /\ errors.Error e = "panic: " +:+ fmt.verb_s v)
  /\ (http.panicked (next w r wd) = None ->
      RecoveryMiddleware next w r wd = next w r wd).
Proof.
  split.
  - intros v Hpanic. cbn zeta. unfold RecoveryMiddleware. rewrite Hpanic.
    split_and!; try done; try apply Errorf_w_s_Is.
    cbn. unfold textproto.Get, textproto.Set_. by rewrite lookup_insert_eq.
  - intros Hret. unfold RecoveryMiddleware. by rewrite Hret.
Qed.

Lemma recovery_contains_panics_witness :
  http.panicked (panicHandler "boom" writer0 (requestFrom "192.0.2.1:4711") world0)
  = Some (any_string "boom")
  /\ http.Written
       (http.writer
          (RecoveryMiddleware (panicHandler "boom") writer0
             (requestFrom "192.0.2.1:4711") world0))
     = [http.mkResponse 500
          (Some (wrapError "panic: boom" (errorString "panic")))]
  /\ http.panicked (okHandler writer0 (requestFrom "192.0.2.1:4711") world0)
     = None
  /\ RecoveryMiddleware okHandler writer0 (requestFrom "192.0.2.1:4711") world0
     = okHandler writer0 (requestFrom "192.0.2.1:4711") world0.
Proof.
  split; [reflexivity|]. split.
  - apply (proj1 (recovery_contains_panics (panicHandler "boom") writer0
                    (requestFrom "192.0.2.1:4711") world0)
             (any_string "boom")).
    reflexivity.
  - split; [reflexivity|].
    apply (proj2 (recovery_contains_panics okHandler writer0
                    (requestFrom "192.0.2.1:4711") world0)).
    reflexivity.
Defined.

(** ** The handler of the rate-limit middleware *)

Lemma rateLimitHandler_parsed cfg next clients w r wd ip port :
  net.SplitHostPort (http.RemoteAddr r) = (ip, port, None) ->
  rateLimitHandler cfg next clients w r wd
  = ((allowClient cfg ip (Now wd) clients).2,
     if (allowClient cfg ip (Now wd) clients).1 then next w r wd
     else http.mkOutcome (RateLimitExceededResponse w r) wd None).
Proof.
  intros Hsplit. unfold rateLimitHandler. rewrite Hsplit.
  by destruct (allowClient cfg ip (Now wd) clients) as [[] clients'].
Qed.

Lemma rateLimitHandler_unparsed cfg next clients w r wd ip port err :
  net.SplitHostPort (http.RemoteAddr r) = (ip, port, Some err) ->
  let w' :=
    ServerErrorResponse w r
      (fmt.Errorf_w "could not parse remote address: " err) in
  rateLimitHandler cfg next clients w r wd
  = ((allowClient cfg ip (Now wd) clients).2,
     if (allowClient cfg ip (Now wd) clients).1 then next w' r wd
     else http.mkOutcome (RateLimitExceededResponse w' r) wd None).
Proof.
  intros Hsplit. cbn zeta. unfold rateLimitHandler. rewrite Hsplit.
  by destruct (allowClient cfg ip (Now wd) clients) as [[] clients'].
Qed.

(** The limiter the critical section queries for [ip]: the one of its
    entry, or a fresh one. *)
Lemma allowClient_spec cfg ip now (clients : gmap string client) :
  let lim :=
    match clients !! ip with
    | Some c => limiter c
    | None => rate.NewLimiter (rate cfg) (burst cfg)
    end in
  allowClient cfg ip now clients
  = ((rate.Allow lim now).1,
     <[ip := {| limiter := (rate.Allow lim now).2; lastSeen := now |}]> clients).
Proof.
  cbn zeta. unfold allowClient.
  destruct (clients !! ip) as [c|]; cbn;
    by destruct (rate.Allow _ now) as [ok lim].
Qed.

(** ** The token bucket *)

Lemma Seconds_nonneg d : 0 <= d -> (0 <= time.Seconds d)%Q.
Proof. intros Hd. unfold time.Seconds, Qle. cbn. lia. Qed.

Lemma Seconds_zero : (time.Seconds 0%Z == 0)%Q.
Proof. reflexivity. Qed.

Lemma no_refill_at_once R t : (R * time.Seconds (t - t)%Z == 0)%Q.
Proof. rewrite Z.sub_diag, Seconds_zero. ring. Qed.

Lemma elapsed_nonneg lim t : 0 <= elapsed lim t.
Proof. unfold elapsed, time.Sub. destruct (Z.ltb_spec t (rate.last lim)); lia. Qed.

Lemma elapsed_since lim t : rate.last lim <= t -> elapsed lim t = t - rate.last lim.
Proof.
  intros Hle. unfold elapsed, time.Sub.
  destruct (Z.ltb_spec t (rate.last lim)); lia.
Qed.

Lemma advance_cases lim t :
  let v := (rate.tokens lim + rate.limit lim * time.Seconds (elapsed lim t))%Q in
  ((v <= inject_Z (rate.burst lim))%Q /\ rate.advance lim t = v)
  \/ ((inject_Z (rate.burst lim) < v)%Q
      /\ rate.advance lim t = inject_Z (rate.burst lim)).
Proof.
  cbn zeta. unfold rate.advance. fold (elapsed lim t).
  destruct (Qle_bool _ _) eqn:Hle.
  - left. split; [by apply Qle_bool_iff | done].
  - right. split; [|done].
    apply Qnot_le_lt. intros Hv. apply Qle_bool_iff in Hv. congruence.
Qed.

(** A query at [t], [d] nanoseconds after the last refill, finds
    [min (x + R * d / 10^9) B] tokens. *)
Lemma Allow_allows lim R B t0 x t y :
  bucket lim R B t0 x -> t0 <= t ->
  (y <= inject_Z B)%Q -> (y <= x + R * time.Seconds (t - t0)%Z)%Q ->
  (y == inject_Z B \/ y == x + R * time.Seconds (t - t0)%Z)%Q ->
  (1 <= y)%Q ->
  (rate.Allow lim t).1 = true /\ bucket (rate.Allow lim t).2 R B t (y - 1).
Proof.
  intros (HR & HB & Ht0 & Hx) Hle HyB Hyv Hy Hone.
  unfold rate.Allow.
  assert (Hadv : (rate.advance lim t == y)%Q).
  { destruct (advance_cases lim t) as [[Hv ->]|[Hv ->]];
      rewrite elapsed_since, HR, Ht0, ?HB, ?Hx in *; try lia;
      destruct Hy as [Hy|Hy]; lra. }
  destruct (Qle_bool 1 (rate.advance lim t)) eqn:Hq.
  - split; [done|]. unfold bucket.
    cbn [rate.limit rate.burst rate.last rate.tokens snd].
    split_and!; try done. lra.
  - exfalso. assert (Hq' : Qle_bool 1 (rate.advance lim t) = true).
    { apply Qle_bool_iff. lra. }
    congruence.
Qed.

Lemma Allow_denies lim R B t0 x t y :
  bucket lim R B t0 x -> t0 <= t ->
  (y <= inject_Z B)%Q -> (y <= x + R * time.Seconds (t - t0)%Z)%Q ->
  (y == inject_Z B \/ y == x + R * time.Seconds (t - t0)%Z)%Q ->
  (y < 1)%Q ->
  rate.Allow lim t = (false, lim).
Proof.
  intros (HR & HB & Ht0 & Hx) Hle HyB Hyv Hy Hone.
  unfold rate.Allow.
  assert (Hadv : (rate.advance lim t == y)%Q).
  { destruct (advance_cases lim t) as [[Hv ->]|[Hv ->]];
      rewrite elapsed_since, HR, Ht0, ?HB, ?Hx in *; try lia;
      destruct Hy as [Hy|Hy]; lra. }
  destruct (Qle_bool 1 (rate.advance lim t)) eqn:Hq; [|done].
  apply Qle_bool_iff in Hq. lra.
Qed.

(** A fresh limiter of a rate that is not negative has its full burst
    at any instant. *)
Lemma NewLimiter_full R B t :
  (0 <= R)%Q -> (rate.advance (rate.NewLimiter R B) t == inject_Z B)%Q.
Proof.
  intros HR.
  pose proof (Seconds_nonneg _ (elapsed_nonneg (rate.NewLimiter R B) t)) as Hs.
  pose proof (Qmult_le_0_compat _ _ HR Hs) as Hprod.
  destruct (advance_cases (rate.NewLimiter R B) t) as [[Hv ->]|[Hv ->]];
    cbn in *; [lra | reflexivity].
Qed.

Lemma Allow_fresh R B t :
  (0 <= R)%Q -> 1 <= B ->
  (rate.Allow (rate.NewLimiter R B) t).1 = true
  /\ bucket (rate.Allow (rate.NewLimiter R B) t).2 R B t (inject_Z B - 1).
Proof.
  intros HR HB. pose proof (NewLimiter_full R B t HR) as Hadv.
  unfold rate.Allow.
  destruct (Qle_bool 1 (rate.advance (rate.NewLimiter R B) t)) eqn:Hq.
  - split; [done|]. unfold bucket.
    cbn [rate.limit rate.burst rate.last rate.tokens snd rate.NewLimiter].
    split_and!; try done. lra.
  - exfalso. assert (Hq' : Qle_bool 1 (rate.advance (rate.NewLimiter R B) t) = true).
    { apply Qle_bool_iff. assert (1 <= inject_Z B)%Q; [|lra].
      change 1%Q with (inject_Z 1). rewrite <- Zle_Qle. lia. }
    congruence.
Qed.

(** ** The critical section of a request *)

Lemma allowClient_lookup_ne cfg ip ip' now (clients : gmap string client) :
  ip' <> ip -> (allowClient cfg ip now clients).2 !! ip' = clients !! ip'.
Proof.
  intros Hne. rewrite allowClient_spec. cbn. by rewrite lookup_insert_ne.
Qed.

Lemma allowClient_lookup cfg ip now (clients : gmap string client) :
  exists c, (allowClient cfg ip now clients).2 !! ip = Some c /\ lastSeen c = now.
Proof.
  rewrite allowClient_spec. cbn. eexists. by rewrite lookup_insert_eq.
Qed.

Lemma allowClient_fresh cfg ip t (clients : gmap string client) :
  clients !! ip = None -> (0 <= rate cfg)%Q -> 1 <= burst cfg ->
  (allowClient cfg ip t clients).1 = true
  /\ entry (allowClient cfg ip t clients).2 ip (rate cfg) (burst cfg) t
       (inject_Z (burst cfg) - 1).
Proof.
  intros Hnone HR HB. rewrite allowClient_spec, Hnone. cbn.
  destruct (Allow_fresh (rate cfg) (burst cfg) t HR HB) as [Hok Hb].
  split; [done|]. eexists. by rewrite lookup_insert_eq.
Qed.

Lemma allowClient_allows cfg ip (clients : gmap string client) R B t0 x t y :
  entry clients ip R B t0 x -> t0 <= t ->
  (y <= inject_Z B)%Q -> (y <= x + R * time.Seconds (t - t0)%Z)%Q ->
  (y == inject_Z B \/ y == x + R * time.Seconds (t - t0)%Z)%Q ->
  (1 <= y)%Q ->
  (allowClient cfg ip t clients).1 = true
  /\ entry (allowClient cfg ip t clients).2 ip R B t (y - 1).
Proof.
  intros (c & Hc & Hb) Hle HyB Hyv Hy Hone. rewrite allowClient_spec, Hc. cbn.
  destruct (Allow_allows _ _ _ _ _ _ _ Hb Hle HyB Hyv Hy Hone) as [Hok Hb'].
  split; [done|]. eexists. by rewrite lookup_insert_eq.
Qed.

Lemma allowClient_denies cfg ip (clients : gmap string client) R B t0 x t y :
  entry clients ip R B t0 x -> t0 <= t ->
  (y <= inject_Z B)%Q -> (y <= x + R * time.Seconds (t - t0)%Z)%Q ->
  (y == inject_Z B \/ y == x + R * time.Seconds (t - t0)%Z)%Q ->
  (y < 1)%Q ->
  (allowClient cfg ip t clients).1 = false
  /\ entry (allowClient cfg ip t clients).2 ip R B t0 x.
Proof.
  intros (c & Hc & Hb) Hle HyB Hyv Hy Hone. rewrite allowClient_spec, Hc. cbn.
  rewrite (Allow_denies _ _ _ _ _ _ _ Hb Hle HyB Hyv Hy Hone). cbn.
  split; [done|]. eexists. by rewrite lookup_insert_eq.
Qed.

(** ** Schedules *)

Lemma run_request cfg clients now ip sched :
  run cfg clients (Request now ip :: sched)
  = ((ip, (allowClient cfg ip now clients).1)
       :: (run cfg (allowClient cfg ip now clients).2 sched).1,
     (run cfg (allowClient cfg ip now clients).2 sched).2).
Proof.
  cbn [run]. destruct (allowClient cfg ip now clients) as [ok clients'].
  cbn [fst snd]. by destruct (run cfg clients' sched).
Qed.

Lemma run_reap cfg clients now sched :
  run cfg clients (Reap now :: sched) = run cfg (sweep now clients) sched.
Proof. done. Qed.

Lemma run_app cfg clients s1 s2 :
  run cfg clients (s1 ++ s2)
  = (((run cfg clients s1).1 ++ (run cfg (run cfg clients s1).2 s2).1)%list,
     (run cfg (run cfg clients s1).2 s2).2).
Proof.
  revert clients. induction s1 as [|[now ip|now] s1 IH]; intros clients.
  - cbn. by destruct (run cfg clients s2).
  - rewrite <- app_comm_cons, !run_request, IH. done.
  - rewrite <- app_comm_cons, !run_reap, IH. done.
Qed.

Lemma run_immediate_allowed cfg ip R B t n :
  forall (clients : gmap string client) x,
    entry clients ip R B t x -> (x <= inject_Z B)%Q ->
    (inject_Z (Z.of_nat n) <= x)%Q ->
    (run cfg clients (immediate n t ip)).1 = replicate n (ip, true)
    /\ entry (run cfg clients (immediate n t ip)).2 ip R B t
         (x - inject_Z (Z.of_nat n)).
Proof.
  induction n as [|n IH]; intros clients x Hentry HxB Hn.
  - cbn. split; [done|]. destruct Hentry as (c & Hc & HR & HB & Ht & Hx).
    exists c. split; [done|]. split_and!; try done.
    change (inject_Z (Z.of_nat 0)) with 0%Q. lra.
  - unfold immediate. cbn [replicate]. rewrite run_request.
    rewrite Nat2Z.inj_succ, <- Z.add_1_r, inject_Z_plus in Hn |- *.
    change (inject_Z 1) with 1%Q in *.
    pose proof (no_refill_at_once R t) as Hz.
    assert (Hn0 : (0 <= inject_Z (Z.of_nat n))%Q).
    { change 0%Q with (inject_Z 0). rewrite <- Zle_Qle. lia. }
    destruct (allowClient_allows cfg ip clients R B t x t x Hentry) as [Hok Hentry'];
      try lra; try lia.
    destruct (IH _ (x - 1)%Q Hentry') as [Hds Hfin]; try lra.
    fold (immediate n t ip). cbn [fst snd]. rewrite Hok, Hds.
    split; [done|]. destruct Hfin as (c & Hc & HR & HB & Ht & Hx).
    exists c. split; [done|]. split_and!; try done. lra.
Qed.

Lemma run_immediate_denied cfg ip R B t n :
  forall (clients : gmap string client) x,
    entry clients ip R B t x -> (x <= inject_Z B)%Q -> (x < 1)%Q ->
    (run cfg clients (immediate n t ip)).1 = replicate n (ip, false)
    /\ entry (run cfg clients (immediate n t ip)).2 ip R B t x.
Proof.
  induction n as [|n IH]; intros clients x Hentry HxB Hx1.
  - done.
  - unfold immediate. cbn [replicate]. rewrite run_request.
    pose proof (no_refill_at_once R t) as Hz.
    destruct (allowClient_denies cfg ip clients R B t x t x Hentry) as [Hok Hentry'];
      try lra; try lia.
    destruct (IH _ x Hentry') as [Hds Hfin]; try lra.
    fold (immediate n t ip). cbn [fst snd]. by rewrite Hok, Hds.
Qed.

Lemma entry_equiv (clients : gmap string client) ip R B t x x' :
  entry clients ip R B t x -> (x == x')%Q -> entry clients ip R B t x'.
Proof.
  intros (c & Hc & HR & HB & Ht & Hx) Heq. exists c. split; [done|].
  split_and!; try done. by rewrite Hx.
Qed.

(** A previously unseen identity spends its whole burst at once. *)
Lemma run_burst cfg (clients : gmap string client) ip t :
  0 < burst cfg -> (0 <= rate cfg)%Q -> clients !! ip = None ->
  (run cfg clients (immediate (Z.to_nat (burst cfg)) t ip)).1
  = replicate (Z.to_nat (burst cfg)) (ip, true)
  /\ entry (run cfg clients (immediate (Z.to_nat (burst cfg)) t ip)).2
       ip (rate cfg) (burst cfg) t 0.
Proof.
  intros HB HR Hnone.
  destruct (Z.to_nat (burst cfg)) as [|n] eqn:Hn; [lia|].
  unfold immediate. cbn [replicate]. rewrite run_request.
  fold (immediate n t ip). cbn [fst snd].
  destruct (allowClient_fresh cfg ip t clients Hnone HR) as [Hok Hentry]; [lia|].
  assert (HnB : (inject_Z (Z.of_nat n) == inject_Z (burst cfg) - 1)%Q).
  { replace (burst cfg) with (Z.of_nat n + 1) by lia.
    rewrite inject_Z_plus. change (inject_Z 1) with 1%Q. lra. }
  destruct (run_immediate_allowed cfg ip (rate cfg) (burst cfg) t n _ _ Hentry)
    as [Hds Hfin]; try lra.
  rewrite Hok, Hds. split; [done|].
  apply (entry_equiv _ _ _ _ _ _ _ Hfin). lra.
Qed.

Lemma Seconds_pos_wait R d :
  (0 < R)%Q -> (1 <= R * time.Seconds d)%Q -> 0 < d.
Proof.
  intros HR Hwait. destruct (Z.lt_ge_cases 0 d) as [|Hd]; [done|exfalso].
  assert (Hs : (time.Seconds d <= 0)%Q).
  { unfold time.Seconds, Qle. cbn. lia. }
  assert (Hprod : (0 <= R * - time.Seconds d)%Q).
  { apply Qmult_le_0_compat; lra. }
  lra.
Qed.

(** C3, as amended: a previously unseen identity, with burst [B > 0] and
    rate [R > 0], has its first [B] immediate requests allowed and the
    next immediate one denied; a request that follows after a wait of at
    least [1/R] seconds is allowed; and when the wait is shorter than
    [2/R] seconds, or [B] is 1, every immediate request after that one
    is denied.  No sweep takes place in between. *)
Theorem token_bucket_burst_then_refill cfg (clients : gmap string client) ip t d n :
  0 < burst cfg -> (0 < rate cfg)%Q -> clients !! ip = None ->
  (1 <= rate cfg * time.Seconds d)%Q ->
  let B := Z.to_nat (burst cfg) in
  (run cfg clients
     (immediate B t ip ++ [Request t ip] ++ [Request (t + d) ip])).1
  = (replicate B (ip, true) ++ [(ip, false)] ++ [(ip, true)])%list
  /\ ((rate cfg * time.Seconds d < 2)%Q \/ burst cfg = 1 ->
      (run cfg clients
         (immediate B t ip ++ [Request t ip] ++ [Request (t + d) ip]
            ++ immediate n (t + d) ip)).1
      = (replicate B (ip, true) ++ [(ip, false)] ++ [(ip, true)]
           ++ replicate n (ip, false))%list).
Proof.
  intros HB HR Hnone Hwait B.
  pose proof (Seconds_pos_wait _ _ HR Hwait) as Hd.
  destruct (run_burst cfg clients ip t HB) as [Hburst Hspent]; [lra|done|].
  fold B in Hburst, Hspent.
  set (c1 := (run cfg clients (immediate B t ip)).2) in *.
  pose proof (no_refill_at_once (rate cfg) t) as Hz.
  assert (HB1 : (1 <= inject_Z (burst cfg))%Q).
  { change 1%Q with (inject_Z 1). rewrite <- Zle_Qle. lia. }
  destruct (allowClient_denies cfg ip c1 (rate cfg) (burst cfg) t 0 t 0 Hspent)
    as [Hdeny Hspent']; try lra; try lia.
  set (c2 := (allowClient cfg ip t c1).2) in *.
  set (v := (rate cfg * time.Seconds d)%Q) in *.
  assert (Hsub : t + d - t = d) by lia.
  assert (Hlate : exists y,
    (allowClient cfg ip (t + d) c2).1 = true
    /\ entry (allowClient cfg ip (t + d) c2).2 ip (rate cfg) (burst cfg) (t + d) (y - 1)
    /\ (y <= inject_Z (burst cfg))%Q /\ (y <= v)%Q).
  { destruct (Qlt_le_dec (inject_Z (burst cfg)) v) as [Hcap|Hcap].
    - exists (inject_Z (burst cfg)).
      destruct (allowClient_allows cfg ip c2 (rate cfg) (burst cfg) t 0 (t + d)
                  (inject_Z (burst cfg)) Hspent') as [Hok He];
        rewrite ?Hsub; fold v; try lra; try lia.
      split_and!; try done; lra.
    - exists v.
      destruct (allowClient_allows cfg ip c2 (rate cfg) (burst cfg) t 0 (t + d) v
                  Hspent') as [Hok He];
        rewrite ?Hsub; fold v; try lra; try lia.
      split_and!; try done; lra. }
  destruct Hlate as (y & Hok & Hentry & HyB & Hyv).
  split.
  - rewrite run_app. cbn [app].
    rewrite (run_request _ _ t), (run_request _ _ (t + d)).
    cbn [fst snd run]. fold c1. fold c2. by rewrite Hburst, Hdeny, Hok.
  - intros Hshort.
    rewrite run_app. cbn [app].
    rewrite (run_request _ _ t), (run_request _ _ (t + d)).
    cbn [fst snd]. fold c1. fold c2.
    destruct (run_immediate_denied cfg ip (rate cfg) (burst cfg) (t + d) n
                _ (y - 1)%Q Hentry) as [Hds _]; try lra.
    { destruct Hshort as [Hshort|Hone]; [lra|].
      rewrite Hone in HyB. change (inject_Z 1) with 1%Q in HyB. lra. }
    by rewrite Hburst, Hdeny, Hok, Hds.
Qed.

Lemma token_bucket_burst_then_refill_witness :
  0 < burst defaultConfig
  /\ (0 < rate defaultConfig)%Q
  /\ (∅ : gmap string client) !! "192.0.2.1" = None
  /\ (1 <= rate defaultConfig * time.Seconds (100 * time.Millisecond)%Z)%Q
  /\ (run defaultConfig ∅
        (immediate 20 0 "192.0.2.1" ++ [Request 0 "192.0.2.1"]
           ++ [Request (0 + 100 * time.Millisecond) "192.0.2.1"]
           ++ immediate 3 (0 + 100 * time.Millisecond) "192.0.2.1")).1
     = (replicate 20 ("192.0.2.1", true) ++ [("192.0.2.1", false)]
          ++ [("192.0.2.1", true)] ++ replicate 3 ("192.0.2.1", false))%list.
Proof.
  split; [reflexivity|]. split; [reflexivity|]. split; [reflexivity|].
  split; [discriminate|].
  destruct (token_bucket_burst_then_refill defaultConfig ∅ "192.0.2.1" 0
              (100 * time.Millisecond) 3) as [_ Hrefill];
    [reflexivity | reflexivity | reflexivity | discriminate |].
  apply Hrefill. left. reflexivity.
Defined.

(** C3, as stated, fails: with burst 2 and one token per second, a wait
    of two seconds, which is at least [1/R], is followed by two allowed
    requests, not by exactly one. *)
Lemma token_bucket_refills_more_than_one :
  0 < burst smallConfig
  /\ (0 < rate smallConfig)%Q
  /\ (1 <= rate smallConfig * time.Seconds (2 * time.Second)%Z)%Q
  /\ (run smallConfig ∅
        (immediate 2 0 "192.0.2.1" ++ [Request 0 "192.0.2.1"]
           ++ immediate 2 (0 + 2 * time.Second) "192.0.2.1")).1
     = [("192.0.2.1", true); ("192.0.2.1", true); ("192.0.2.1", false);
        ("192.0.2.1", true); ("192.0.2.1", true)].
Proof.
  split; [reflexivity|]. split; [reflexivity|]. split; [discriminate|].
  vm_compute. reflexivity.
Qed.

(** ** Requests through the rate-limit handler *)

(** C4: a request with a parseable address, served by the enabled
    middleware: the entry of its identity afterwards carries the instant
    of the request as [lastSeen], whatever the decision, and the limiter
    that was queried, which for an unseen identity is a fresh one with a
    full bucket; no other entry changes; on a denial the outcome is the
    rate-limit response, status 429, on the writer as it was, whatever
    the inner handler is; on an admission the outcome is that of the
    inner handler on the same writer, request and process state. *)
Theorem rate_limit_request cfg next (clients : gmap string client) w r wd ip port :
  net.SplitHostPort (http.RemoteAddr r) = (ip, port, None) ->
  let lim :=
    match clients !! ip with
    | Some c => limiter c
    | None => rate.NewLimiter (rate cfg) (burst cfg)
    end in
  let ok := (rate.Allow lim (Now wd)).1 in
  let res := rateLimitHandler cfg next clients w r wd in
  (clients !! ip = None -> rate.tokens lim = inject_Z (burst cfg))
  /\ res.1 !! ip
     = Some {| limiter := (rate.Allow lim (Now wd)).2; lastSeen := Now wd |}
  /\ (forall ip', ip' <> ip -> res.1 !! ip' = clients !! ip')
  /\ (ok = false ->
      res.2 = http.mkOutcome (RateLimitExceededResponse w r) wd None
      /\ http.Written (http.writer res.2)
         = (http.Written w ++ [http.mkResponse 429 None])%list
      /\ forall next', (rateLimitHandler cfg next' clients w r wd).2 = res.2)
  /\ (ok = true -> res.2 = next w r wd).
Proof.
  intros Hsplit lim ok res.
  assert (Hres : res = (<[ip := {| limiter := (rate.Allow lim (Now wd)).2;
                                   lastSeen := Now wd |}]> clients,
                        if ok then next w r wd
                        else http.mkOutcome (RateLimitExceededResponse w r) wd None)).
  { unfold res. rewrite (rateLimitHandler_parsed _ _ _ _ _ _ _ _ Hsplit).
    by rewrite allowClient_spec. }
  split_and!.
  - intros Hnone. unfold lim. by rewrite Hnone.
  - rewrite Hres. cbn. by rewrite lookup_insert_eq.
  - intros ip' Hne. rewrite Hres. cbn. by rewrite lookup_insert_ne.
  - intros Hdeny. rewrite Hres. cbn. rewrite Hdeny. split_and!; try done.
    intros next'. rewrite (rateLimitHandler_parsed _ _ _ _ _ _ _ _ Hsplit).
    rewrite allowClient_spec. cbn. fold lim. fold ok. by rewrite Hdeny.
  - intros Hallow. rewrite Hres. cbn. by rewrite Hallow.
Qed.

Lemma rate_limit_request_witness :
  net.SplitHostPort (http.RemoteAddr (requestFrom "192.0.2.1:4711"))
  = ("192.0.2.1", "4711", None)
  /\ (rateLimitHandler defaultConfig okHandler ∅ writer0
        (requestFrom "192.0.2.1:4711") world0).2
     = okHandler writer0 (requestFrom "192.0.2.1:4711") world0.
Proof.
  split; [reflexivity|].
  destruct (rate_limit_request defaultConfig okHandler ∅ writer0
              (requestFrom "192.0.2.1:4711") world0 "192.0.2.1" "4711")
    as (_ & _ & _ & _ & Hallow); [reflexivity|].
  apply Hallow. reflexivity.
Defined.

(** C1 fails on the code: after the server-error response for an
    address that does not parse, the handler goes on (line 142 has no
    return).  Here the address lacks its port; the identity is then the
    empty string, an entry is created for it, its fresh limiter allows,
    and the inner handler is invoked on the writer that already holds
    the 500 response. *)
Theorem unparsed_address_reaches_inner_handler next w wd :
  let r := requestFrom "192.0.2.1" in
  let err := AddrError "missing port in address" "192.0.2.1" in
  net.SplitHostPort (http.RemoteAddr r) = (EmptyString, EmptyString, Some err)
  /\ (rateLimitHandler defaultConfig next ∅ w r wd).2
     = next
         (ServerErrorResponse w r
            (fmt.Errorf_w "could not parse remote address: " err))
         r wd.
Proof.
  cbn zeta. split; [reflexivity|].
  rewrite (rateLimitHandler_unparsed _ _ _ _ _ _ EmptyString EmptyString
             (AddrError "missing port in address" "192.0.2.1"));
    [|reflexivity].
  destruct (allowClient_fresh defaultConfig EmptyString (Now wd) ∅) as [Hok _];
    [reflexivity | discriminate | discriminate |].
  by rewrite Hok.
Qed.

Example unparsed_address_two_responses :
  http.Written
    (http.writer
       (rateLimitHandler defaultConfig okHandler ∅ writer0
          (requestFrom "192.0.2.1") world0).2)
  = [http.mkResponse 500
       (Some (wrapError
                "could not parse remote address: address 192.0.2.1: missing port in address"
                (AddrError "missing port in address" "192.0.2.1")));
     http.mkResponse 200 None].
Proof. vm_compute. reflexivity. Qed.

(** ** The sweep *)

Lemma sweep_lookup now (clients : gmap string client) ip :
  sweep now clients !! ip
  = match clients !! ip with
    | Some c => if stale now c then None else Some c
    | None => None
    end.
Proof.
  unfold sweep. rewrite map_lookup_filter.
  destruct (clients !! ip) as [c|]; [|done]. cbn.
  destruct (stale now c); case_guard; done.
Qed.

Lemma stale_iff now c :
  stale now c = true <-> 3 * time.Minute < now - lastSeen c.
Proof. unfold stale, time.Since, time.Sub. apply Z.ltb_lt. Qed.

Lemma sweep_keeps now (clients : gmap string client) ip c :
  clients !! ip = Some c -> now - lastSeen c <= 3 * time.Minute ->
  sweep now clients !! ip = Some c.
Proof.
  intros Hc Hfresh. rewrite sweep_lookup, Hc.
  destruct (stale now c) eqn:Hs; [|done]. apply stale_iff in Hs. lia.
Qed.

Lemma sweep_removes now (clients : gmap string client) ip c :
  clients !! ip = Some c -> 3 * time.Minute < now - lastSeen c ->
  sweep now clients !! ip = None.
Proof.
  intros Hc Hold. rewrite sweep_lookup, Hc.
  by rewrite (proj2 (stale_iff now c) Hold).
Qed.

Lemma sweep_absent now (clients : gmap string client) ip :
  clients !! ip = None -> sweep now clients !! ip = None.
Proof. intros Hc. by rewrite sweep_lookup, Hc. Qed.

(** ** Isolation of identities *)

Lemma decisionsOf_cons_eq ip ok ds :
  decisionsOf ip ((ip, ok) :: ds) = ok :: decisionsOf ip ds.
Proof. unfold decisionsOf. by rewrite filter_cons_True. Qed.

Lemma decisionsOf_cons_ne ip ip' ok ds :
  ip' <> ip -> decisionsOf ip ((ip', ok) :: ds) = decisionsOf ip ds.
Proof. intros Hne. unfold decisionsOf. by rewrite filter_cons_False. Qed.

Lemma allowClient_local cfg ip now (c1 c2 : gmap string client) :
  c1 !! ip = c2 !! ip ->
  (allowClient cfg ip now c1).1 = (allowClient cfg ip now c2).1
  /\ (allowClient cfg ip now c1).2 !! ip = (allowClient cfg ip now c2).2 !! ip.
Proof.
  intros Heq. rewrite !allowClient_spec, Heq. cbn. by rewrite !lookup_insert_eq.
Qed.

(** The decisions for [ip], and its entry at the end, are those of the
    schedule without the requests of the other identities, from any map
    that holds the same entry for [ip]. *)
Lemma run_local cfg ip sched :
  forall c1 c2 : gmap string client,
    c1 !! ip = c2 !! ip ->
    decisionsOf ip (run cfg c1 sched).1
    = decisionsOf ip (run cfg c2 (filter (concerns ip) sched)).1
    /\ (run cfg c1 sched).2 !! ip
       = (run cfg c2 (filter (concerns ip) sched)).2 !! ip.
Proof.
  induction sched as [|[now ip'|now] sched IH]; intros c1 c2 Heq.
  - done.
  - rewrite run_request. cbn [fst snd].
    destruct (decide (ip' = ip)) as [->|Hne].
    + rewrite filter_cons_True by (by apply bool_decide_pack).
      rewrite run_request. cbn [fst snd].
      destruct (allowClient_local cfg ip now c1 c2 Heq) as [Hok Hent].
      destruct (IH _ _ Hent) as [Hds Hfin].
      by rewrite !decisionsOf_cons_eq, Hok, Hds.
    + rewrite filter_cons_False by (by intros Hc%bool_decide_unpack).
      rewrite decisionsOf_cons_ne by done.
      apply IH. by rewrite allowClient_lookup_ne.
  - rewrite filter_cons_True by done. rewrite !run_reap.
    apply IH. by rewrite !sweep_lookup, Heq.
Qed.

(** C7: a turn of the reaper wakes one minute after it went to sleep
    and then removes exactly the entries last seen more than three
    minutes before, leaving every other entry as it was; an identity
    without an entry after the sweep is decided like one never seen: its
    next request creates an entry with a fresh limiter, whose bucket is
    full, and its full burst is allowed at once. *)
Theorem reaper_evicts_idle_entries cfg t (clients : gmap string client) :
  let t' := (reaperTurn t clients).1 in
  let swept := (reaperTurn t clients).2 in
  t' = t + 60 * 1000000000
  /\ (forall ip c,
        clients !! ip = Some c -> 180 * 1000000000 < t' - lastSeen c ->
        swept !! ip = None)
  /\ (forall ip c,
        clients !! ip = Some c -> t' - lastSeen c <= 180 * 1000000000 ->
        swept !! ip = Some c)
  /\ (forall ip, clients !! ip = None -> swept !! ip = None)
  /\ (forall ip sched,
        swept !! ip = None ->
        decisionsOf ip (run cfg swept sched).1
        = decisionsOf ip (run cfg ∅ sched).1)
  /\ (forall ip now,
        swept !! ip = None ->
        let fresh := rate.NewLimiter (rate cfg) (burst cfg) in
        rate.tokens fresh = inject_Z (burst cfg)
        /\ (allowClient cfg ip now swept).1 = (rate.Allow fresh now).1
        /\ (allowClient cfg ip now swept).2 !! ip
           = Some {| limiter := (rate.Allow fresh now).2; lastSeen := now |})
  /\ (forall ip now,
        swept !! ip = None -> 0 < burst cfg -> (0 <= rate cfg)%Q ->
        (run cfg swept (immediate (Z.to_nat (burst cfg)) now ip)).1
        = replicate (Z.to_nat (burst cfg)) (ip, true)).
Proof.
  cbn zeta. unfold reaperTurn. cbn [fst snd]. split_and!.
  - unfold time.Minute, time.Second. lia.
  - intros ip c Hc Hold. apply (sweep_removes _ _ _ c Hc).
    unfold time.Minute, time.Second in *. lia.
  - intros ip c Hc Hfresh. apply (sweep_keeps _ _ _ c Hc).
    unfold time.Minute, time.Second in *. lia.
  - intros ip Hc. by apply sweep_absent.
  - intros ip sched Hgone.
    destruct (run_local cfg ip sched (sweep (t + time.Minute) clients) ∅)
      as [-> _]; [by rewrite Hgone, lookup_empty|].
    by destruct (run_local cfg ip sched ∅ ∅) as [-> _].
  - intros ip now Hgone. rewrite allowClient_spec, Hgone. cbn.
    by rewrite lookup_insert_eq.
  - intros ip now Hgone HB HR. by apply run_burst.
Qed.

(** ** Contention *)

Lemma Allow_no_refill lim t :
  (rate.limit lim == 0)%Q -> (rate.tokens lim < 1)%Q ->
  rate.Allow lim t = (false, lim).
Proof.
  intros Hlim Htok. unfold rate.Allow.
  assert (Hz : (rate.limit lim * time.Seconds (elapsed lim t) == 0)%Q).
  { rewrite Hlim. ring. }
  destruct (Qle_bool 1 (rate.advance lim t)) eqn:Hq; [|done].
  apply Qle_bool_iff in Hq.
  destruct (advance_cases lim t) as [[Hv Hadv]|[Hv Hadv]];
    rewrite Hadv in Hq; lra.
Qed.

Lemma noEviction_tail a sched : noEviction (a :: sched) -> noEviction sched.
Proof.
  intros Hno s t ip Hs Ht. apply (Hno s t ip); by apply elem_of_cons; right.
Qed.

(** Once the single token is spent, nothing more is allowed. *)
Lemma spent_denied cfg ip sched :
  forall (clients : gmap string client) c,
    clients !! ip = Some c ->
    (rate.limit (limiter c) == 0)%Q -> (rate.tokens (limiter c) < 1)%Q ->
    Forall (concerns ip) sched ->
    (forall s, Reap s ∈ sched -> s - lastSeen c <= 3 * time.Minute) ->
    noEviction sched ->
    Forall (fun d => d = (ip, false)) (run cfg clients sched).1.
Proof.
  induction sched as [|[now ip'|now] sched IH];
    intros clients c Hc Hlim Htok Hown Hseen Hno.
  - constructor.
  - apply Forall_cons in Hown as [Hip%bool_decide_unpack Hown]. subst ip'.
    rewrite run_request. cbn [fst snd].
    rewrite allowClient_spec, Hc, (Allow_no_refill _ _ Hlim Htok). cbn [fst snd].
    constructor; [done|].
    apply (IH _ {| limiter := limiter c; lastSeen := now |});
      [by rewrite lookup_insert_eq | done | done | done | | by eapply noEviction_tail].
    intros s Hs. cbn. apply (Hno s now ip); [by apply elem_of_cons; right|].
    apply elem_of_cons; by left.
  - apply Forall_cons in Hown as [_ Hown]. rewrite run_reap.
    apply (IH _ c); try done.
    + apply sweep_keeps; [done|]. apply Hseen, elem_of_cons; by left.
    + intros s Hs. apply Hseen, elem_of_cons; by right.
    + by eapply noEviction_tail.
Qed.

(** From a map without the identity, the first request to take the lock
    is allowed and every other one is denied. *)
Lemma first_allowed cfg ip sched :
  forall clients : gmap string client,
    clients !! ip = None ->
    (rate cfg == 0)%Q -> burst cfg = 1 ->
    Forall (concerns ip) sched -> noEviction sched ->
    (run cfg clients sched).1 = []
    \/ exists ds, (run cfg clients sched).1 = (ip, true) :: ds
                  /\ Forall (fun d => d = (ip, false)) ds.
Proof.
  induction sched as [|[now ip'|now] sched IH];
    intros clients Hnone HR HB Hown Hno.
  - by left.
  - right. apply Forall_cons in Hown as [Hip%bool_decide_unpack Hown].
    subst ip'. rewrite run_request. cbn [fst snd].
    destruct (allowClient_fresh cfg ip now clients Hnone) as [Hok Hentry];
      [lra | lia |].
    destruct Hentry as (c & Hc & Hlim & Hb & Hlast & Htok).
    destruct (allowClient_lookup cfg ip now clients) as (c' & Hc' & Hseen).
    assert (c' = c) by congruence. subst c'.
    eexists. split; [by rewrite Hok|].
    apply (spent_denied cfg ip sched _ c Hc); try done.
    + rewrite Hlim. done.
    + rewrite Htok, HB. reflexivity.
    + intros s Hs. rewrite Hseen.
      apply (Hno s now ip); [by apply elem_of_cons; right|].
      apply elem_of_cons; by left.
    + by eapply noEviction_tail.
  - apply Forall_cons in Hown as [_ Hown]. rewrite run_reap.
    apply IH; try done; [by apply sweep_absent | by eapply noEviction_tail].
Qed.

Lemma length_run cfg sched :
  forall clients : gmap string client,
    length (run cfg clients sched).1 = requests sched.
Proof.
  unfold requests.
  induction sched as [|[now ip|now] sched IH]; intros clients.
  - done.
  - rewrite run_request, filter_cons_True by done. cbn. by rewrite IH.
  - rewrite run_reap, filter_cons_False by (by intros []). apply IH.
Qed.

Lemma all_denied_count ip ds :
  Forall (fun d => d = (ip, false)) ds ->
  countAllowed ds = O /\ countDenied ds = length ds.
Proof.
  unfold countAllowed, countDenied. induction 1 as [|d ds -> _ [IHa IHd]]; [done|].
  rewrite filter_cons_False by (by intros [=]).
  rewrite filter_cons_True by done. cbn. by rewrite IHa, IHd.
Qed.

(** C9: with burst 1 and rate 0, of the requests of one identity that
    take the lock in any order and at any instants, sweeps in between
    included, exactly one is allowed and the others are denied; and the
    decisions for an identity are those of the schedule from which the
    requests of every other identity are removed, whatever the entries
    of the others. *)
Theorem one_admission_under_contention :
  (forall cfg (clients : gmap string client) ip sched,
     (rate cfg == 0)%Q -> burst cfg = 1 ->
     clients !! ip = None ->
     Forall (concerns ip) sched -> noEviction sched ->
     (1 <= requests sched)%nat ->
     countAllowed (run cfg clients sched).1 = 1%nat
     /\ countDenied (run cfg clients sched).1 = (requests sched - 1)%nat)
  /\ (forall cfg (c1 c2 : gmap string client) ip s1 s2,
        c1 !! ip = c2 !! ip ->
        filter (concerns ip) s1 = filter (concerns ip) s2 ->
        decisionsOf ip (run cfg c1 s1).1 = decisionsOf ip (run cfg c2 s2).1).
Proof.
  split.
  - intros cfg clients ip sched HR HB Hnone Hown Hno Hn.
    pose proof (length_run cfg sched clients) as Hlen.
    destruct (first_allowed cfg ip sched clients Hnone HR HB Hown Hno)
      as [Hnil|(ds & Hds & Hall)].
    + rewrite Hnil in Hlen. cbn in Hlen. lia.
    + rewrite Hds in Hlen |- *. cbn in Hlen.
      destruct (all_denied_count ip ds Hall) as [Ha Hd].
      unfold countAllowed, countDenied in *.
      rewrite filter_cons_True by done.
      rewrite filter_cons_False by (by intros [=]).
      cbn. rewrite Ha, Hd. lia.
  - intros cfg c1 c2 ip s1 s2 Heq Hsched.
    destruct (run_local cfg ip s1 c1 c2 Heq) as [-> _].
    destruct (run_local cfg ip s2 c2 c2 eq_refl) as [-> _].
    by rewrite Hsched.
Qed.

Lemma one_admission_under_contention_witness :
  (rate singleConfig == 0)%Q
  /\ burst singleConfig = 1
  /\ (1 <= requests contended)%nat
  /\ countAllowed (run singleConfig ∅ contended).1 = 1%nat
  /\ countDenied (run singleConfig ∅ contended).1 = 2%nat
  /\ decisionsOf "192.0.2.1" (run singleConfig ∅ contendedMixed).1
     = decisionsOf "192.0.2.1" (run singleConfig oneClient contended).1.
Proof.
  destruct one_admission_under_contention as [Hone Hiso].
  split; [reflexivity|]. split; [reflexivity|].
  split; [vm_compute; lia|].
  destruct (Hone singleConfig ∅ "192.0.2.1" contended) as [Ha Hd].
  - reflexivity.
  - reflexivity.
  - reflexivity.
  - repeat constructor.
  - intros s t ip Hs Ht. unfold contended in Hs, Ht.
    assert (s = 7) as ->.
    { repeat (apply elem_of_cons in Hs as [Hs|Hs]; [by inversion Hs|]).
      by apply elem_of_nil in Hs. }
    assert (5 <= t).
    { repeat (apply elem_of_cons in Ht as [Ht|Ht];
              [inversion Ht; subst; lia|]).
      by apply elem_of_nil in Ht. }
    unfold time.Minute, time.Second. lia.
  - vm_compute. lia.
  - split; [exact Ha|]. split; [exact Hd|].
    apply Hiso; reflexivity.
Defined.

Lemma reaper_evicts_idle_entries_witness :
  twoClients !! "192.0.2.1"
  = Some {| limiter := rate.NewLimiter 10 20; lastSeen := 0 |}
  /\ (reaperTurn (4 * time.Minute) twoClients).2 !! "192.0.2.1" = None
  /\ (reaperTurn (4 * time.Minute) twoClients).2 !! "198.51.100.9"
     = Some {| limiter := rate.NewLimiter 10 20; lastSeen := 4 * time.Minute |}
  /\ (run defaultConfig (reaperTurn (4 * time.Minute) twoClients).2
        (immediate (Z.to_nat (burst defaultConfig)) (5 * time.Minute)
           "192.0.2.1")).1
     = replicate (Z.to_nat (burst defaultConfig)) ("192.0.2.1", true).
Proof.
  destruct (reaper_evicts_idle_entries defaultConfig (4 * time.Minute) twoClients)
    as (_ & Hold & Hkeep & _ & _ & _ & Hfull).
  split; [reflexivity|].
  assert (Hgone : (reaperTurn (4 * time.Minute) twoClients).2 !! "192.0.2.1" = None).
  { apply (Hold "192.0.2.1" {| limiter := rate.NewLimiter 10 20; lastSeen := 0 |});
      reflexivity. }
  split; [exact Hgone|]. split.
  - apply Hkeep; [reflexivity|discriminate].
  - apply Hfull; [exact Hgone | reflexivity | discriminate].
Defined.

(** ** Request identifiers *)

Example CanonicalMIMEHeaderKey_request_id :
  textproto.CanonicalMIMEHeaderKey "X-Request-ID" = "X-Request-Id".
Proof. reflexivity. Qed.




Lemma requestContext_external src r wd :
  textproto.Get (http.Header r) "X-Request-ID" <> EmptyString ->
  requestContext src r wd
  = (context.WithValue (http.Context r) LogRequestIDKey
       ("ext-" +:+ textproto.Get (http.Header r) "X-Request-ID"), wd).
Proof.
  intros Hid. unfold requestContext.
  destruct (String.eqb_spec (textproto.Get (http.Header r) "X-Request-ID")
              EmptyString); done.
Qed.

Lemma requestContext_generated src r wd :
  textproto.Get (http.Header r) "X-Request-ID" = EmptyString ->
  requestContext src r wd
  = (context.WithValue (http.Context r) LogRequestIDKey
       (uuid.String_ (src (uuidsDrawn wd))),
     {| clock := clock wd; logged := logged wd;
        uuidsDrawn := S (uuidsDrawn wd) |}).
Proof. intros Hid. unfold requestContext. by rewrite Hid. Qed.

Lemma LoggingMiddleware_unfold src next w r wd :
  LoggingMiddleware src next w r wd
  = let ctx := (requestContext src r wd).1 in
    let r' := http.WithContext r ctx in
    let o :=
      next w r'
        (InfoContext (requestContext src r wd).2 ctx "request started" []) in
    match http.panicked o with
    | Some _ => o
    | None => completed (Now wd) ctx r' o
    end.
Proof.
  unfold LoggingMiddleware. by destruct (requestContext src r wd).
Qed.

Lemma identifierSeen_spec src w r wd :
  identifierSeen src w r wd = default EmptyString (requestID src r wd).
Proof.
  unfold identifierSeen. rewrite LoggingMiddleware_unfold. cbn zeta.
  unfold echoIDHandler, requestID. cbn.
  unfold textproto.Get, textproto.Set_. by rewrite lookup_insert_eq.
Qed.




Lemma allBytes_complete b : b ∈ allBytes.
Proof.
  assert (Hfound : existsb (Byte.eqb b) allBytes = true).
  { destruct b; vm_compute; reflexivity. }
  apply existsb_exists in Hfound as (b' & Hin & Heq%Byte.byte_dec_bl).
  subst b'. by apply list_elem_of_In.
Qed.

Lemma allUUIDs_complete u : u ∈ allUUIDs.
Proof.
  destruct u. unfold allUUIDs.
  repeat (apply list_elem_of_bind; eexists; split; [|apply allBytes_complete]).
  apply list_elem_of_singleton. reflexivity.
Qed.

(** A UUID is sixteen bytes: whatever [uuid.New] does, two of its calls
    return the same value. *)
Lemma every_generator_repeats (src : nat -> uuid.UUID) :
  exists i j, (i < j)%nat /\ src i = src j.
Proof.
  destruct (list_pigeonhole (src <$> seq 0 (S (length allUUIDs))) allUUIDs)
    as (i & j & u & Hij & Hi & Hj).
  - intros u _. apply allUUIDs_complete.
  - rewrite length_fmap, length_seq. lia.
  - exists i, j. split; [done|].
    apply list_lookup_fmap_Some in Hi as (i' & Hu & Hi).
    apply list_lookup_fmap_Some in Hj as (j' & Hu' & Hj).
    apply lookup_seq in Hi as [-> _]. apply lookup_seq in Hj as [-> _].
    cbn in Hu, Hu'. congruence.
Qed.

(** Hence no generator keeps the identifiers of all requests without the
    header apart: for each there are two calls, and so two such
    requests, the second identified after the first, with the same
    identifier. *)
Lemma identifiers_repeat_for_every_generator (src : nat -> uuid.UUID) :
  exists wd1 wd2,
    (uuidsDrawn wd1 < uuidsDrawn wd2)%nat
    /\ identifierSeen src writer0 (requestFrom "192.0.2.1:4711") wd1
       = identifierSeen src writer0 (requestFrom "198.51.100.9:80") wd2.
Proof.
  destruct (every_generator_repeats src) as (i & j & Hij & Heq).
  exists (worldAfter i), (worldAfter j). split; [done|].
  rewrite !identifierSeen_spec. unfold requestID.
  rewrite !requestContext_generated by reflexivity. cbn. by rewrite Heq.
Qed.

(** * Further properties *)

(** ** The logging middleware *)

(** The logging middleware changes neither the response nor the way the
    call ends: the writer, the panic, the clock and the count of UUIDs
    are those the inner handler leaves, and a panic of the inner handler
    passes through with the outcome untouched. *)
Theorem logging_is_transparent src next w r wd :
  let ctx := (requestContext src r wd).1 in
  let o :=
    next w (http.WithContext r ctx)
      (InfoContext (requestContext src r wd).2 ctx "request started" []) in
  let res := LoggingMiddleware src next w r wd in
  http.writer res = http.writer o
  /\ http.panicked res = http.panicked o
  /\ clock (http.world res) = clock (http.world o)
  /\ uuidsDrawn (http.world res) = uuidsDrawn (http.world o)
  /\ (forall v, http.panicked o = Some v -> res = o).
Proof.
  cbn zeta. rewrite LoggingMiddleware_unfold. cbn zeta.
  destruct (http.panicked (next _ _ _)) as [v|] eqn:Hp.
  - split_and!; try done.
  - split_and!; try done.
Qed.

Lemma requestContext_logged src r wd :
  logged (requestContext src r wd).2 = logged wd
  /\ clock (requestContext src r wd).2 = clock wd.
Proof.
  unfold requestContext.
  by destruct (negb (String.eqb _ _)).
Qed.

(** The records of the logging middleware: "request started" is logged
    before the inner handler runs; when the inner handler returns,
    "request completed" follows what the inner handler logged, with the
    method, the URL and the whole milliseconds between the two readings
    of the clock; when the inner handler panics, no record follows.
    Both records carry the context that holds the identifier. *)
Theorem logging_records src next w r wd :
  let ctx := (requestContext src r wd).1 in
  let wd' := InfoContext (requestContext src r wd).2 ctx "request started" [] in
  let o := next w (http.WithContext r ctx) wd' in
  let res := LoggingMiddleware src next w r wd in
  logged wd'
  = (logged wd ++ [slog.mkRecord slog.LevelInfo ctx "request started" []])%list
  /\ (http.panicked o = None ->
      logged (http.world res)
      = (logged (http.world o)
         ++ [slog.mkRecord slog.LevelInfo ctx "request completed"
               [("request_method", slog.StringValue (http.Method r));
                ("request_url", slog.StringValue (http.URL r));
                ("duration",
                 slog.Int64Value
                   (Z.quot (clock (http.world o) - clock wd) 1000000))]])%list)
  /\ (forall v, http.panicked o = Some v ->
      logged (http.world res) = logged (http.world o))
  /\ context.Value ctx LogRequestIDKey = requestID src r wd.
Proof.
  cbn zeta. split_and!.
  - cbn. by rewrite (proj1 (requestContext_logged src r wd)).
  - intros Hp. rewrite LoggingMiddleware_unfold. cbn zeta. by rewrite Hp.
  - intros v Hp. rewrite LoggingMiddleware_unfold. cbn zeta. by rewrite Hp.
  - done.
Qed.

Lemma logging_records_witness :
  logged
    (http.world
       (LoggingMiddleware sampleSource okHandler writer0
          (requestWithID "abc123") world0))
  = [slog.mkRecord slog.LevelInfo [(LogRequestIDKey, "ext-abc123")]
       "request started" [];
     slog.mkRecord slog.LevelInfo [(LogRequestIDKey, "ext-abc123")]
       "request completed"
       [("request_method", slog.StringValue "GET");
        ("request_url", slog.StringValue "/tenants");
        ("duration", slog.Int64Value 0)]]
  /\ logged
       (http.world
          (LoggingMiddleware sampleSource (panicHandler "boom") writer0
             (requestWithID "abc123") world0))
     = [slog.mkRecord slog.LevelInfo [(LogRequestIDKey, "ext-abc123")]
          "request started" []].
Proof.
  destruct (logging_records sampleSource okHandler writer0
              (requestWithID "abc123") world0) as (_ & Hdone & _).
  destruct (logging_records sampleSource (panicHandler "boom") writer0
              (requestWithID "abc123") world0) as (_ & _ & Hpanic & _).
  split.
  - rewrite Hdone; reflexivity.
  - rewrite (Hpanic (any_string "boom")); reflexivity.
Defined.

Lemma Value_WithValue ctx key val key' :
  context.Value (context.WithValue ctx key val) key'
  = if context.key_eqb key key' then Some val else context.Value ctx key'.
Proof. done. Qed.

(** The logging middleware calls the inner handler on a request that is
    the request received but for its context; in that context every
    value under another key is as it was, a value is present under the
    identifier key, and what the inner handler finds there does not
    depend on the context the request came with: a value already under
    the key is replaced. *)
Theorem logging_forwards_request src w r wd :
  exists r' wd',
    (forall next,
       LoggingMiddleware src next w r wd
       = let o := next w r' wd' in
         match http.panicked o with
         | Some _ => o
         | None => completed (Now wd) (http.Context r') r' o
         end)
    /\ http.Method r' = http.Method r
    /\ http.URL r' = http.URL r
    /\ http.Header r' = http.Header r
    /\ http.RemoteAddr r' = http.RemoteAddr r
    /\ (forall name,
          context.Value (http.Context r') (otherKey name)
          = context.Value (http.Context r) (otherKey name))
    /\ is_Some (context.Value (http.Context r') LogRequestIDKey)
    /\ (forall ctx0,
          identifierSeen src w (http.WithContext r ctx0) wd
          = identifierSeen src w r wd).
Proof.
  exists (http.WithContext r (requestContext src r wd).1),
    (InfoContext (requestContext src r wd).2 (requestContext src r wd).1
       "request started" []).
  split_and!; try done.
  - intros next. by rewrite LoggingMiddleware_unfold.
  - intros name. cbn. unfold requestContext.
    by destruct (negb (String.eqb _ _)).
  - cbn. unfold requestContext.
    destruct (negb (String.eqb _ _)); cbn; eauto.
  - intros ctx0. rewrite !identifierSeen_spec. unfold requestID, requestContext.
    cbn [http.Header http.WithContext].
    by destruct (negb (String.eqb _ _)).
Qed.

Lemma lo_not_x b : uuid.lo b <> "x"%char.
Proof. destruct b; discriminate. Qed.

(** An identifier taken from the header is never one the generator
    could have produced: the second byte of "ext-" is no hexadecimal
    digit. *)
Theorem external_identifier_is_not_generated src src' r1 r2 wd1 wd2 :
  textproto.Get (http.Header r1) "X-Request-ID" <> EmptyString ->
  textproto.Get (http.Header r2) "X-Request-ID" = EmptyString ->
  requestID src r1 wd1 <> requestID src' r2 wd2.
Proof.
  intros Hext Hgen. unfold requestID.
  rewrite requestContext_external, requestContext_generated by done. cbn.
  destruct (src' (uuidsDrawn wd2)). unfold uuid.hex.
  intros [= _ Hx]. by apply (lo_not_x b0).
Qed.

Lemma external_identifier_is_not_generated_witness :
  requestID sampleSource (requestWithID "abc123") world0
  <> requestID sampleSource (requestFrom "192.0.2.1:4711") world0.
Proof.
  apply (external_identifier_is_not_generated sampleSource sampleSource
           (requestWithID "abc123") (requestFrom "192.0.2.1:4711")
           world0 world0); [discriminate | reflexivity].
Defined.

(** ** The recovery middleware *)

Lemma RecoveryMiddleware_returns next w r wd :
  http.panicked (RecoveryMiddleware next w r wd) = None.
Proof.
  unfold RecoveryMiddleware.
  by destruct (http.panicked (next w r wd)) eqn:Hp.
Qed.

(** Whatever the inner handler does, the recovery middleware returns;
    wrapping a handler twice is wrapping it once. *)
Theorem recovery_never_panics next w r wd :
  http.panicked (RecoveryMiddleware next w r wd) = None
  /\ RecoveryMiddleware (RecoveryMiddleware next) w r wd
     = RecoveryMiddleware next w r wd.
Proof.
  split; [apply RecoveryMiddleware_returns|].
  unfold RecoveryMiddleware at 1.
  by rewrite RecoveryMiddleware_returns.
Qed.

(** ** Middlewares in a chain *)

(** Recovery around logging: a panic of the application handler passes
    through the logging middleware, which then logs no completion, and
    ends in the one 500 response of the recovery middleware. *)
Theorem recovery_around_logging src next w r wd v :
  let ctx := (requestContext src r wd).1 in
  let o :=
    next w (http.WithContext r ctx)
      (InfoContext (requestContext src r wd).2 ctx "request started" []) in
  http.panicked o = Some v ->
  let res := RecoveryMiddleware (LoggingMiddleware src next) w r wd in
  http.panicked res = None
  /\ http.Written (http.writer res)
     = (http.Written (http.writer o)
        ++ [http.mkResponse 500 (Some (fmt.Errorf_w_s ErrPanic v))])%list
  /\ logged (http.world res) = logged (http.world o).
Proof.
  cbn zeta. intros Hp. unfold RecoveryMiddleware.
  rewrite LoggingMiddleware_unfold. cbn zeta. rewrite Hp, Hp. done.
Qed.

Lemma recovery_around_logging_witness :
  http.panicked
    (panicHandler "boom" writer0
       (http.WithContext (requestWithID "abc123")
          (requestContext sampleSource (requestWithID "abc123") world0).1)
       (InfoContext
          (requestContext sampleSource (requestWithID "abc123") world0).2
          (requestContext sampleSource (requestWithID "abc123") world0).1
          "request started" []))
  = Some (any_string "boom")
  /\ length
       (logged
          (http.world
             (RecoveryMiddleware
                (LoggingMiddleware sampleSource (panicHandler "boom"))
                writer0 (requestWithID "abc123") world0)))
     = 1%nat.
Proof.
  split; [reflexivity|].
  destruct (recovery_around_logging sampleSource (panicHandler "boom") writer0
              (requestWithID "abc123") world0 (any_string "boom"))
    as (_ & _ & Hlog); [reflexivity|].
  rewrite Hlog. reflexivity.
Defined.

(** Logging around recovery: the logging middleware then sees no panic,
    and logs the completion of every request, with the writer as the
    recovery middleware leaves it. *)
Theorem logging_around_recovery src next w r wd :
  let ctx := (requestContext src r wd).1 in
  let r' := http.WithContext r ctx in
  let o :=
    RecoveryMiddleware next w r'
      (InfoContext (requestContext src r wd).2 ctx "request started" []) in
  let res := LoggingMiddleware src (RecoveryMiddleware next) w r wd in
  res = completed (Now wd) ctx r' o
  /\ http.panicked res = None
  /\ http.writer res = http.writer o
  /\ length (logged (http.world res)) = S (length (logged (http.world o))).
Proof.
  cbn zeta. rewrite LoggingMiddleware_unfold. cbn zeta.
  rewrite RecoveryMiddleware_returns.
  split_and!; try done. cbn. rewrite length_app. cbn. lia.
Qed.

(** ** The authentication middleware *)

(** The authentication middleware is the inner handler, for every
    redirector: the redirector is never called. *)
Lemma authentication_is_pass_through redirector redirector' next :
  GetStateAwareAuthenticationMiddleware redirector next = next
  /\ GetStateAwareAuthenticationMiddleware redirector
     = GetStateAwareAuthenticationMiddleware redirector'
  /\ forall w r wd,
       RecoveryMiddleware (GetStateAwareAuthenticationMiddleware redirector next)
         w r wd
       = RecoveryMiddleware next w r wd.
Proof. done. Qed.

(** ** Configuration and construction, continued *)

Section ConstructionFacts.

Variable ParseEnvBool : Environ -> string -> bool -> bool.
Variable ParseEnvFloat64 : Environ -> string -> Q -> Q * option error.
Variable ParseEnvInt : Environ -> string -> Z -> Z * option error.

Let config := getRateLimitConfig ParseEnvBool ParseEnvFloat64 ParseEnvInt.
Let construct := RateLimitMiddleware ParseEnvBool ParseEnvFloat64 ParseEnvInt.

Lemma getRateLimitConfig_overrides env x n :
  ParseEnvBool env "RATE_LIMIT_ENABLED" true = true ->
  ParseEnvFloat64 env "RATE_LIMIT_RATE" (inject_Z 10) = (x, None) ->
  ParseEnvInt env "RATE_LIMIT_BURST" 20 = (n, None) ->
  config env = Returned {| enabled := true; rate := x; burst := n |}.
Proof.
  intros Hflag Hrate Hburst. unfold config, getRateLimitConfig. cbn.
  rewrite Hflag. cbn. unfold defaultRateLimitRate, defaultRateLimitBurst.
  by rewrite Hrate, Hburst.
Qed.

(** With the flag on and two values that parse, whatever they are, the
    constructor returns the rate-limit handler for exactly these values
    over an empty map, starts one reaper and logs one record with the
    rate and the burst; the values are not checked: a burst or a rate
    that is zero or negative is taken as it is. *)
Theorem enabled_construction env next wd x n :
  ParseEnvBool env "RATE_LIMIT_ENABLED" true = true ->
  ParseEnvFloat64 env "RATE_LIMIT_RATE" (inject_Z 10) = (x, None) ->
  ParseEnvInt env "RATE_LIMIT_BURST" 20 = (n, None) ->
  let cfg := {| enabled := true; rate := x; burst := n |} in
  construct env next wd
  = Returned
      ({| handler := Limited cfg next; store := Some ∅; started := [reaper] |},
       {| clock := clock wd;
          logged :=
            logged wd
            ++ [slog.mkRecord slog.LevelInfo [] "rate limit middleware enabled"
                  [("rate", slog.Float64Value x);
                   ("burst", slog.Int64Value n)]];
          uuidsDrawn := uuidsDrawn wd |}).
Proof.
  intros Hflag Hrate Hburst. cbn zeta.
  unfold construct, RateLimitMiddleware. fold config.
  by rewrite (getRateLimitConfig_overrides env x n).
Qed.

(** The panic of the constructor carries the error of the reader that
    failed; the rate is read first, so when both values are invalid the
    error is the one of the rate, and the burst is not read. *)
Theorem construction_panics_with_reader_error env next wd :
  ParseEnvBool env "RATE_LIMIT_ENABLED" true = true ->
  (forall x e,
     ParseEnvFloat64 env "RATE_LIMIT_RATE" (inject_Z 10) = (x, Some e) ->
     construct env next wd = Panic (any_error e))
  /\ (forall x n e,
        ParseEnvFloat64 env "RATE_LIMIT_RATE" (inject_Z 10) = (x, None) ->
        ParseEnvInt env "RATE_LIMIT_BURST" 20 = (n, Some e) ->
        construct env next wd = Panic (any_error e)).
Proof.
  intros Hflag. split.
  - intros x e Hrate. apply RateLimitMiddleware_panics.
    by apply (getRateLimitConfig_rate_error _ _ _ env x e).
  - intros x n e Hrate Hburst. apply RateLimitMiddleware_panics.
    by apply (getRateLimitConfig_burst_error _ _ _ env x n e).
Qed.

End ConstructionFacts.

(** ** Addresses that do not parse *)

Lemma SplitHostPort_error hostport host port err :
  net.SplitHostPort hostport = (host, port, Some err) ->
  host = EmptyString /\ port = EmptyString.
Proof.
  unfold net.SplitHostPort, net.checkBrackets, net.addrErr.
  repeat case_match; by intros [= <- <- _].
Qed.

(** Every request whose address does not parse is answered 500 first
    and then handled as a request of the empty identity: its entry is
    created or refreshed and its limiter queried; on a denial the 429
    response follows the 500 on the same writer, otherwise the inner
    handler is called on the writer that holds the 500. *)
Theorem unparsed_address_is_the_empty_identity cfg next
    (clients : gmap string client) w r wd host port err :
  net.SplitHostPort (http.RemoteAddr r) = (host, port, Some err) ->
  let w' :=
    ServerErrorResponse w r
      (fmt.Errorf_w "could not parse remote address: " err) in
  let res := rateLimitHandler cfg next clients w r wd in
  let decision := allowClient cfg EmptyString (Now wd) clients in
  host = EmptyString
  /\ res.1 = decision.2
  /\ (decision.1 = false ->
      http.Written (http.writer res.2)
      = (http.Written w
         ++ [http.mkResponse 500
               (Some (fmt.Errorf_w "could not parse remote address: " err));
             http.mkResponse 429 None])%list)
  /\ (decision.1 = true -> res.2 = next w' r wd).
Proof.
  intros Hsplit. cbn zeta.
  destruct (SplitHostPort_error _ _ _ _ Hsplit) as [-> ->].
  rewrite (rateLimitHandler_unparsed _ _ _ _ _ _ _ _ _ Hsplit). cbn [fst snd].
  split_and!; try done.
  - intros ->. cbn. by rewrite <- app_assoc.
  - by intros ->.
Qed.

Lemma unparsed_address_is_the_empty_identity_witness :
  net.SplitHostPort (http.RemoteAddr (requestFrom "[::1]"))
  = (EmptyString, EmptyString,
     Some (AddrError "missing port in address" "[::1]"))
  /\ (rateLimitHandler defaultConfig okHandler ∅ writer0
        (requestFrom "[::1]") world0).1
     = (allowClient defaultConfig EmptyString (Now world0) ∅).2.
Proof.
  split; [reflexivity|].
  destruct (unparsed_address_is_the_empty_identity defaultConfig okHandler ∅
              writer0 (requestFrom "[::1]") world0 EmptyString EmptyString
              (AddrError "missing port in address" "[::1]"))
    as (_ & Hstore & _); [reflexivity|].
  exact Hstore.
Defined.

(** ** The map of clients *)

Local Set Warnings "-clear-no-such-hyp".

Lemma allowClient_size cfg ip now (clients : gmap string client) :
  (size (allowClient cfg ip now clients).2 <= S (size clients))%nat.
Proof.
  rewrite allowClient_spec. cbn [snd].
  destruct (clients !! ip) as [c|] eqn:Hc.
  - rewrite map_size_insert_Some by eauto. lia.
  - rewrite map_size_insert_None by done. lia.
Qed.

Lemma allowClient_dom cfg ip now (clients : gmap string client) :
  dom (allowClient cfg ip now clients).2 = {[ip]} ∪ dom clients.
Proof. rewrite allowClient_spec. cbn. by rewrite dom_insert_L. Qed.

(** The map grows by at most one entry per request, and only by the
    identities that send requests: after any schedule it holds no more
    entries than before plus the number of requests, its keys are among
    the keys before and the identities of the schedule, and without a
    sweep they are exactly these. *)
Theorem map_grows_by_requests cfg sched :
  forall clients : gmap string client,
    (size (run cfg clients sched).2 <= size clients + requests sched)%nat
    /\ dom (run cfg clients sched).2 ⊆ dom clients ∪ identities sched
    /\ (Forall isRequest sched ->
        dom (run cfg clients sched).2 = dom clients ∪ identities sched).
Proof.
  unfold requests.
  induction sched as [|[now ip|now] sched IH]; intros clients.
  - cbn. split_and!; [lia | set_solver | set_solver].
  - rewrite run_request. cbn [fst snd].
    destruct (IH (allowClient cfg ip now clients).2) as (Hsize & Hdom & Heq).
    pose proof (allowClient_size cfg ip now clients) as Hone.
    rewrite allowClient_dom in Hdom, Heq.
    rewrite filter_cons_True by done. cbn [length identities].
    split_and!; [lia | set_solver |].
    intros [_ Hall]%Forall_cons. rewrite (Heq Hall). set_solver.
  - rewrite run_reap.
    destruct (IH (sweep now clients)) as (Hsize & Hdom & _).
    pose proof (map_subseteq_size _ _
                  (map_filter_subseteq (fun kc => stale now kc.2 = false) clients))
      as Hsweep.
    pose proof (dom_filter_subseteq (fun kc => stale now kc.2 = false) clients)
      as Hsub.
    fold (sweep now clients) in Hsweep, Hsub.
    rewrite filter_cons_False by (by intros []). cbn [identities].
    split_and!; [lia | set_solver |].
    by intros [[] _]%Forall_cons.
Qed.

(** The requests of others never alter an entry, and only a sweep
    removes it: after any schedule in which an identity sends nothing,
    an identity without an entry has none, and an entry is either the one
    it was or gone, gone exactly when the schedule holds a sweep at an
    instant more than three minutes after the entry was last seen. *)
Theorem silent_identity_is_untouched cfg ip sched :
  forall clients : gmap string client,
    ip ∉ identities sched ->
    (clients !! ip = None -> (run cfg clients sched).2 !! ip = None)
    /\ (forall c,
          clients !! ip = Some c ->
          ((run cfg clients sched).2 !! ip = Some c
           \/ (run cfg clients sched).2 !! ip = None)
          /\ ((run cfg clients sched).2 !! ip = None
              <-> exists s, Reap s ∈ sched
                            /\ 3 * time.Minute < s - lastSeen c)).
Proof.
  induction sched as [|[now ip'|now] sched IH]; intros clients Hsilent.
  - split; [done|]. intros c Hc. split; [by left|]. split.
    + cbn. congruence.
    + intros (s & Hs & _). by apply elem_of_nil in Hs.
  - cbn [identities] in Hsilent. rewrite run_request. cbn [fst snd].
    assert (Hne : ip <> ip') by set_solver.
    assert (Hsilent' : ip ∉ identities sched) by set_solver.
    destruct (IH (allowClient cfg ip' now clients).2 Hsilent') as [Hnone Hsome].
    rewrite allowClient_lookup_ne in Hnone, Hsome by done.
    split; [done|]. intros c Hc. destruct (Hsome c Hc) as [Hcases Hiff].
    split; [done|]. rewrite Hiff. split.
    + intros (s & Hs & Hold). exists s. split; [|done].
      apply elem_of_cons. by right.
    + intros (s & Hs & Hold). exists s. split; [|done].
      apply elem_of_cons in Hs as [[=]|Hs]. done.
  - cbn [identities] in Hsilent. rewrite run_reap.
    destruct (IH (sweep now clients) Hsilent) as [Hnone Hsome].
    split.
    + intros Hc. apply Hnone. by apply sweep_absent.
    + intros c Hc. destruct (stale now c) eqn:Hstale.
      * assert (Hgone : sweep now clients !! ip = None).
        { by rewrite sweep_lookup, Hc, Hstale. }
        rewrite (Hnone Hgone). split; [by right|]. split; [|done].
        intros _. exists now. split; [apply elem_of_cons; by left|].
        by apply stale_iff.
      * assert (Hkept : sweep now clients !! ip = Some c).
        { by rewrite sweep_lookup, Hc, Hstale. }
        destruct (Hsome c Hkept) as [Hcases Hiff].
        split; [done|]. rewrite Hiff. split.
        -- intros (s & Hs & Hold). exists s. split; [|done].
           apply elem_of_cons. by right.
        -- intros (s & Hs & Hold).
           apply elem_of_cons in Hs as [[= ->]|Hs].
           ++ apply stale_iff in Hold. congruence.
           ++ by exists s.
Qed.

Lemma silent_identity_is_untouched_witness :
  ("198.51.100.9" ∉ identities contended)
  /\ (run singleConfig twoClients contended).2 !! "198.51.100.9"
     = twoClients !! "198.51.100.9".
Proof.
  assert (Hsilent : "198.51.100.9" ∉ identities contended).
  { cbn. set_solver. }
  split; [exact Hsilent|].
  destruct (silent_identity_is_untouched singleConfig "198.51.100.9" contended
              twoClients Hsilent) as [_ Hsome].
  destruct (Hsome {| limiter := rate.NewLimiter 10 20;
                     lastSeen := 4 * time.Minute |} eq_refl)
    as [[Hkept|Hgone] Hiff].
  - rewrite Hkept. reflexivity.
  - exfalso. apply Hiff in Hgone as (s & Hs & Hold).
    unfold contended in Hs. cbn [lastSeen] in Hold.
    repeat (apply elem_of_cons in Hs as [Hs|Hs];
            [try discriminate; injection Hs as ->;
             unfold time.Minute, time.Second in Hold; lia|]).
    by apply elem_of_nil in Hs.
Defined.

(** ** Sweeps in sequence *)

Lemma stale_later t1 t2 c : t1 <= t2 -> stale t1 c = true -> stale t2 c = true.
Proof. rewrite !stale_iff. lia. Qed.

Lemma sweep_sweep a b (clients : gmap string client) :
  a <= b -> sweep b (sweep a clients) = sweep b clients.
Proof.
  intros Hab. apply map_eq. intros ip. rewrite !sweep_lookup.
  destruct (clients !! ip) as [c|]; [|done].
  destruct (stale a c) eqn:Ha; [|done].
  by rewrite (stale_later a b c Hab Ha).
Qed.

(** A sweep only removes: what it leaves is part of the map as it was;
    a sweep after an earlier sweep leaves what it would have left alone,
    so sweeping twice at one instant is sweeping once. *)
Theorem sweeps_compose t1 t2 (clients : gmap string client) :
  t1 <= t2 ->
  sweep t1 clients ⊆ clients
  /\ sweep t2 (sweep t1 clients) = sweep t2 clients
  /\ sweep t2 (sweep t2 clients) = sweep t2 clients.
Proof.
  intros Hle.
  split_and!; [apply map_filter_subseteq | by apply sweep_sweep |].
  apply sweep_sweep. lia.
Qed.

Lemma sweeps_compose_witness :
  4 * time.Minute <= 9 * time.Minute
  /\ sweep (9 * time.Minute) (sweep (4 * time.Minute) twoClients) = ∅.
Proof.
  split; [discriminate|].
  destruct (sweeps_compose (4 * time.Minute) (9 * time.Minute) twoClients)
    as (_ & -> & _); [discriminate|].
  apply map_eq. intros ip. rewrite sweep_lookup, lookup_empty.
  unfold twoClients, oneClient.
  destruct (decide (ip = "192.0.2.1")) as [->|Hne1]; [reflexivity|].
  rewrite lookup_insert_ne by done.
  destruct (decide (ip = "198.51.100.9")) as [->|Hne2]; [reflexivity|].
  by rewrite lookup_insert_ne.
Defined.

Lemma reaperLoop_sweeps n :
  forall t (clients : gmap string client),
    reaperLoop (S n) t clients
    = (t + Z.of_nat (S n) * time.Minute,
       sweep (t + Z.of_nat (S n) * time.Minute) clients).
Proof.
  induction n as [|n IH]; intros t clients.
  - cbn [reaperLoop]. unfold reaperTurn. repeat f_equal; lia.
  - change (reaperLoop (S (S n)) t clients)
      with (reaperLoop (S n) (t + time.Minute) (sweep (t + time.Minute) clients)).
    rewrite IH.
    replace (t + time.Minute + Z.of_nat (S n) * time.Minute)
      with (t + Z.of_nat (S (S n)) * time.Minute) by lia.
    f_equal.
    apply sweep_sweep. unfold time.Minute, time.Second. lia.
Qed.

(** The reaper left alone for [n] turns, [n] at least one, has swept
    once, at the instant of its last waking, [n] minutes after it
    started: an entry is gone exactly when it was last seen more than
    three minutes before that instant, and so any entry last seen before
    the first waking is gone after four turns. *)
Theorem reaper_turns n t (clients : gmap string client) :
  reaperLoop (S n) t clients
  = (t + Z.of_nat (S n) * 60000000000,
     sweep (t + Z.of_nat (S n) * 60000000000) clients)
  /\ (forall ip c,
        clients !! ip = Some c ->
        ((reaperLoop (S n) t clients).2 !! ip = None
         <-> 180000000000 < t + Z.of_nat (S n) * 60000000000 - lastSeen c)
        /\ ((reaperLoop (S n) t clients).2 !! ip = Some c
            <-> t + Z.of_nat (S n) * 60000000000 - lastSeen c <= 180000000000))
  /\ (forall ip c,
        clients !! ip = Some c -> lastSeen c < t + 60000000000 ->
        (reaperLoop 4 t clients).2 !! ip = None).
Proof.
  assert (Hmin : time.Minute = 60000000000) by reflexivity.
  split_and!.
  - by rewrite reaperLoop_sweeps, Hmin.
  - intros ip c Hc. rewrite reaperLoop_sweeps. cbn [snd].
    rewrite sweep_lookup, Hc, Hmin.
    destruct (stale _ c) eqn:Hs.
    + apply stale_iff in Hs. rewrite Hmin in Hs. split; split; try done; lia.
    + assert (Hn : ~ 3 * time.Minute
                     < t + Z.of_nat (S n) * 60000000000 - lastSeen c).
      { intros Hlt%stale_iff. congruence. }
      rewrite Hmin in Hn. split; split; try done; lia.
  - intros ip c Hc Hseen. rewrite reaperLoop_sweeps. cbn [snd].
    apply (sweep_removes _ _ _ c Hc). rewrite Hmin. lia.
Qed.

Lemma reaper_turns_witness :
  twoClients !! "192.0.2.1"
  = Some {| limiter := rate.NewLimiter 10 20; lastSeen := 0 |}
  /\ (reaperLoop 3 0 twoClients).2 !! "192.0.2.1"
     = Some {| limiter := rate.NewLimiter 10 20; lastSeen := 0 |}
  /\ (reaperLoop 4 0 twoClients).2 !! "192.0.2.1" = None.
Proof.
  split; [reflexivity|].
  destruct (reaper_turns 2 0 twoClients) as (_ & Hiff & _).
  destruct (reaper_turns 3 0 twoClients) as (_ & _ & Hfour).
  split.
  - apply (Hiff "192.0.2.1"); [reflexivity | discriminate].
  - apply (Hfour "192.0.2.1" {| limiter := rate.NewLimiter 10 20; lastSeen := 0 |});
      reflexivity.
Defined.

(** A request keeps its identity in the map, admitted or not: right
    after it the entry is there with the instant of the request, and a
    sweep no more than three minutes later leaves it as it is. *)
Theorem request_keeps_entry_alive cfg ip now s (clients : gmap string client) :
  s - now <= 3 * time.Minute ->
  exists c,
    (allowClient cfg ip now clients).2 !! ip = Some c
    /\ lastSeen c = now
    /\ sweep s (allowClient cfg ip now clients).2 !! ip = Some c.
Proof.
  intros Hsoon.
  destruct (allowClient_lookup cfg ip now clients) as (c & Hc & Hseen).
  exists c. split_and!; try done.
  apply sweep_keeps; [done | lia].
Qed.

Lemma request_keeps_entry_alive_witness :
  3 * time.Minute - 0 <= 3 * time.Minute
  /\ is_Some (sweep (3 * time.Minute)
                (allowClient singleConfig "192.0.2.1" 0
                   (allowClient singleConfig "192.0.2.1" 0 ∅).2).2
              !! "192.0.2.1").
Proof.
  split; [discriminate|].
  destruct (request_keeps_entry_alive singleConfig "192.0.2.1" 0
              (3 * time.Minute)
              (allowClient singleConfig "192.0.2.1" 0 ∅).2) as (c & _ & _ & Hc);
    [discriminate|].
  by exists c.
Defined.

(** ** What the bucket never allows *)

Lemma Allow_empty_bucket lim t :
  rate.burst lim <= 0 -> rate.Allow lim t = (false, lim).
Proof.
  intros Hb. unfold rate.Allow.
  destruct (Qle_bool 1 (rate.advance lim t)) eqn:Hq; [|done].
  apply Qle_bool_iff in Hq.
  assert (Hcap : (inject_Z (rate.burst lim) <= 0)%Q).
  { change 0%Q with (inject_Z 0). by rewrite <- Zle_Qle. }
  destruct (advance_cases lim t) as [[Hv Hadv]|[Hv Hadv]];
    rewrite Hadv in Hq; lra.
Qed.

Lemma queried_bucket_empty cfg ip (clients : gmap string client) :
  burst cfg <= 0 ->
  (forall c, clients !! ip = Some c -> rate.burst (limiter c) <= 0) ->
  rate.burst
    match clients !! ip with
    | Some c => limiter c
    | None => rate.NewLimiter (rate cfg) (burst cfg)
    end <= 0.
Proof.
  intros Hcfg Hinv. destruct (clients !! ip) as [c|] eqn:Hc; [by apply Hinv|done].
Qed.

Lemma empty_bucket_denies cfg ip sched :
  forall clients : gmap string client,
    burst cfg <= 0 ->
    (forall c, clients !! ip = Some c -> rate.burst (limiter c) <= 0) ->
    Forall (fun d => d.1 = ip -> d.2 = false) (run cfg clients sched).1.
Proof.
  induction sched as [|[now ip'|now] sched IH]; intros clients Hcfg Hinv.
  - constructor.
  - rewrite run_request. cbn [fst snd]. constructor.
    + cbn [fst snd]. intros ->. rewrite allowClient_spec. cbn [fst].
      by rewrite (Allow_empty_bucket _ now (queried_bucket_empty _ _ _ Hcfg Hinv)).
    + apply IH; [done|]. intros c.
      destruct (decide (ip' = ip)) as [->|Hne].
      * rewrite allowClient_spec. cbn [snd]. rewrite lookup_insert_eq.
        rewrite (Allow_empty_bucket _ now (queried_bucket_empty _ _ _ Hcfg Hinv)).
        intros [= <-]. cbn [limiter snd].
        by apply queried_bucket_empty.
      * rewrite allowClient_lookup_ne by done. apply Hinv.
  - rewrite run_reap. apply IH; [done|]. intros c. rewrite sweep_lookup.
    destruct (clients !! ip) as [c'|] eqn:Hc; [|done].
    destruct (stale now c'); [done|]. intros [= <-]. by apply Hinv.
Qed.

(** With a burst that is zero or negative, which the configuration
    takes as it is, no request is ever allowed, of any identity, at any
    instant (the limiter is the one modelled from the spec). *)
Theorem no_burst_no_request cfg sched :
  burst cfg <= 0 ->
  Forall (fun d => d.2 = false) (run cfg ∅ sched).1
  /\ countAllowed (run cfg ∅ sched).1 = O.
Proof.
  intros Hcfg.
  assert (Hall : Forall (fun d => d.2 = false) (run cfg ∅ sched).1).
  { apply Forall_forall. intros [ip ok] Hd.
    assert (Hnone : forall c : client,
              (∅ : gmap string client) !! ip = Some c ->
              rate.burst (limiter c) <= 0) by done.
    pose proof (empty_bucket_denies cfg ip sched ∅ Hcfg Hnone) as Hip.
    rewrite Forall_forall in Hip. by apply (Hip _ Hd). }
  split; [done|]. unfold countAllowed.
  induction Hall as [|d ds Hd _ IH]; [done|].
  rewrite filter_cons_False by (rewrite Hd; done). done.
Qed.

Lemma no_burst_no_request_witness :
  burst {| enabled := true; rate := 10; burst := 0 |} <= 0
  /\ (run {| enabled := true; rate := 10; burst := 0 |} ∅ contendedMixed).1
     = [("192.0.2.1", false); ("198.51.100.9", false); ("192.0.2.1", false);
        ("198.51.100.9", false); ("192.0.2.1", false)]
  /\ countAllowed
       (run {| enabled := true; rate := 10; burst := 0 |} ∅ contendedMixed).1
     = O.
Proof.
  split; [discriminate|]. split; [vm_compute; reflexivity|].
  apply (no_burst_no_request {| enabled := true; rate := 10; burst := 0 |}
           contendedMixed).
  discriminate.
Defined.

(** ** The test helper AssertError *)

Lemma lookup2_index m key s :
  negb (json.lookup2 m key).2 || negb (json.eqString (json.lookup2 m key).1 s)
  = negb (json.eqString (json.index m key) s).
Proof.
  unfold json.lookup2, json.index. by destruct (m !! key).
Qed.

Lemma AssertError_first t resp first rest field message :
  json.index resp "errors" = json.Slice (first :: rest) ->
  exists t',
    testutils.AssertError t resp field message = Returned t'
    /\ length (testing.output t')
       = (length (testing.output t) + mismatches first field message)%nat
    /\ (mismatches first field message = O -> t' = t)
    /\ (mismatches first field message <> O -> testing.failed t' = true).
Proof.
  intros Herrors. unfold testutils.AssertError. rewrite Herrors.
  unfold mismatches.
  replace (match first with
           | json.Map m => (m, true)
           | _ => (∅, false)
           end) with (firstError first, isObject first) by (by destruct first).
  pose proof (lookup2_index (firstError first) "field" field) as Hf.
  pose proof (lookup2_index (firstError first) "message" message) as Hm.
  destruct (json.lookup2 (firstError first) "field") as [errorKey ok1].
  destruct (json.lookup2 (firstError first) "message") as [errorMessage ok2].
  cbn [fst snd] in Hf, Hm. rewrite Hf, Hm.
  eexists. split; [reflexivity|].
  destruct (isObject first),
    (json.eqString (json.index (firstError first) "field") field),
    (json.eqString (json.index (firstError first) "message") message);
    cbn; rewrite ?length_app; cbn; split_and!; try done; lia.
Qed.

Lemma eqString_true v s : json.eqString v s = true <-> v = json.Str s.
Proof.
  destruct v; cbn; try (split; [discriminate | intros [=]]).
  rewrite String.eqb_eq. split; [by intros -> | by intros [= ->]].
Qed.

Lemma index_Str (m : gmap string json.value) key s :
  json.index m key = json.Str s <-> m !! key = Some (json.Str s).
Proof.
  unfold json.index. destruct (m !! key) as [v|]; cbn.
  - split; [by intros -> | by intros [= ->]].
  - split; discriminate.
Qed.

Lemma index_Slice (m : gmap string json.value) key l :
  json.index m key = json.Slice l <-> m !! key = Some (json.Slice l).
Proof.
  unfold json.index. destruct (m !! key) as [v|]; cbn.
  - split; [by intros -> | by intros [= ->]].
  - split; discriminate.
Qed.

Lemma mismatches_none first field message :
  mismatches first field message = O
  <-> exists e, first = json.Map e
                /\ e !! "field" = Some (json.Str field)
                /\ e !! "message" = Some (json.Str message).
Proof.
  unfold mismatches. split.
  - destruct (isObject first) eqn:Hobj; [|cbn; lia].
    destruct (json.eqString _ field) eqn:Hf; [|cbn; lia].
    destruct (json.eqString _ message) eqn:Hm; [|cbn; lia].
    intros _. destruct first as [| | | | |e]; try discriminate.
    exists e. split; [done|].
    apply eqString_true, index_Str in Hf. apply eqString_true, index_Str in Hm.
    done.
  - intros (e & -> & Hf & Hm). cbn [isObject firstError].
    apply index_Str, eqString_true in Hf. apply index_Str, eqString_true in Hm.
    by rewrite Hf, Hm.
Qed.

(** [AssertError] returns without a failure exactly when the first of
    the errors of the response is an object whose "field" and "message"
    are the two expected strings; the errors after the first are not
    looked at. *)
Theorem AssertError_passes_iff t resp field message :
  testutils.AssertError t resp field message = Returned t
  <-> exists e rest,
        resp !! "errors" = Some (json.Slice (json.Map e :: rest))
        /\ e !! "field" = Some (json.Str field)
        /\ e !! "message" = Some (json.Str message).
Proof.
  split.
  - intros Hret.
    destruct (json.index resp "errors") as [| | | |l|] eqn:Herrors;
      try (unfold testutils.AssertError in Hret; rewrite Herrors in Hret;
           discriminate).
    destruct l as [|first rest];
      [unfold testutils.AssertError in Hret; rewrite Herrors in Hret;
       discriminate|].
    destruct (AssertError_first t resp first rest field message Herrors)
      as (t' & Ht' & Hlen & _).
    rewrite Hret in Ht'. injection Ht' as <-.
    assert (Hnone : mismatches first field message = O) by lia.
    apply mismatches_none in Hnone as (e & -> & Hf & Hm).
    exists e, rest. by apply index_Slice in Herrors.
  - intros (e & rest & Herrors%index_Slice & Hf & Hm).
    destruct (AssertError_first t resp (json.Map e) rest field message Herrors)
      as (t' & Ht' & _ & Hsame & _).
    rewrite Ht'. f_equal. apply Hsame. apply mismatches_none. eauto.
Qed.

(** [AssertError] panics exactly when the response has no "errors", or
    a value there that is not an array, or an empty array; otherwise it
    returns, having marked the test failed unless nothing was logged,
    with at most three failures logged after what was logged before, and
    with three of them when the first error is not an object. *)
Theorem AssertError_panics_iff t resp field message :
  ((exists v, testutils.AssertError t resp field message = Panic v)
   <-> ~ exists first rest, resp !! "errors" = Some (json.Slice (first :: rest)))
  /\ (forall first rest,
        resp !! "errors" = Some (json.Slice (first :: rest)) ->
        exists t',
          testutils.AssertError t resp field message = Returned t'
          /\ (length (testing.output t')
              <= length (testing.output t) + 3)%nat
          /\ (testing.failed t' = true \/ t' = t)
          /\ (isObject first = false ->
              length (testing.output t')
              = (length (testing.output t) + 3)%nat)).
Proof.
  split.
  - split.
    + intros [v Hpanic] (first & rest & Herrors%index_Slice).
      destruct (AssertError_first t resp first rest field message Herrors)
        as (t' & Ht' & _).
      congruence.
    + intros Hnot. unfold testutils.AssertError.
      destruct (json.index resp "errors") as [| | | |l|] eqn:Herrors; eauto.
      destruct l as [|first rest]; eauto.
      exfalso. apply Hnot. exists first, rest. by apply index_Slice.
  - intros first rest Herrors%index_Slice.
    destruct (AssertError_first t resp first rest field message Herrors)
      as (t' & Ht' & Hlen & Hsame & Hfail).
    exists t'. split; [done|].
    assert (Hmax : (mismatches first field message <= 3)%nat).
    { unfold mismatches. repeat case_match; lia. }
    split_and!.
    + lia.
    + destruct (decide (mismatches first field message = O)); auto.
    + intros Hobj. rewrite Hlen. f_equal. unfold mismatches. rewrite Hobj.
      by destruct first.
Qed.

Lemma AssertError_passes_iff_witness :
  testutils.AssertError t0 (errorBody "plan" "Invalid plan") "plan" "Invalid plan"
  = Returned t0
  /\ testutils.AssertError t0 (errorBody "plan" "Invalid plan") "plan" "Required"
     <> Returned t0.
Proof.
  split.
  - apply AssertError_passes_iff.
    exists (<["field" := json.Str "plan"]> {["message" := json.Str "Invalid plan"]}),
      []. by split_and!.
  - intros (e & rest & Herrors & _ & Hm)%AssertError_passes_iff.
    unfold errorBody in Herrors. rewrite lookup_singleton_eq in Herrors.
    injection Herrors as <- _.
    rewrite lookup_insert_ne, lookup_singleton_eq in Hm by done. discriminate.
Defined.

Lemma AssertError_panics_iff_witness :
  (exists v, testutils.AssertError t0 ∅ "plan" "Invalid plan" = Panic v)
  /\ exists t',
       testutils.AssertError t0 {["errors" := json.Slice [json.Str "oops"]]}
         "plan" "Invalid plan" = Returned t'
       /\ length (testing.output t') = 3%nat.
Proof.
  split.
  - apply (proj1 (AssertError_panics_iff t0 ∅ "plan" "Invalid plan")).
    intros (first & rest & Herrors). by rewrite lookup_empty in Herrors.
  - destruct (proj2 (AssertError_panics_iff t0
                       {["errors" := json.Slice [json.Str "oops"]]}
                       "plan" "Invalid plan") (json.Str "oops") [])
      as (t' & Ht' & _ & _ & Hthree); [by rewrite lookup_singleton_eq|].
    exists t'. split; [done|]. by apply Hthree.
Defined.

(** ** Further sample runs *)

Lemma enabled_construction_witness :
  parser.ParseEnvBool envOverrides "RATE_LIMIT_ENABLED" true = true
  /\ parser.ParseEnvFloat64 envOverrides "RATE_LIMIT_RATE" (inject_Z 10)
     = (Qmake 25 10, None)
  /\ parser.ParseEnvInt envOverrides "RATE_LIMIT_BURST" 20 = (5, None)
  /\ RateLimitMiddleware parser.ParseEnvBool parser.ParseEnvFloat64
       parser.ParseEnvInt envOverrides okHandler world0
     = Returned
         ({| handler :=
               Limited {| enabled := true; rate := Qmake 25 10; burst := 5 |}
                 okHandler;
             store := Some ∅; started := [reaper] |},
          {| clock := 0;
             logged :=
               [slog.mkRecord slog.LevelInfo [] "rate limit middleware enabled"
                  [("rate", slog.Float64Value (Qmake 25 10));
                   ("burst", slog.Int64Value 5)]];
             uuidsDrawn := 0 |}).
Proof.
  split; [reflexivity|]. split; [reflexivity|]. split; [reflexivity|].
  apply (enabled_construction parser.ParseEnvBool parser.ParseEnvFloat64
           parser.ParseEnvInt envOverrides okHandler world0 (Qmake 25 10) 5);
    reflexivity.
Defined.

Lemma construction_panics_with_reader_error_witness :
  parser.ParseEnvBool envBothInvalid "RATE_LIMIT_ENABLED" true = true
  /\ RateLimitMiddleware parser.ParseEnvBool parser.ParseEnvFloat64
       parser.ParseEnvInt envBothInvalid okHandler world0
     = Panic (any_error parser.ErrSyntax)
  /\ RateLimitMiddleware parser.ParseEnvBool parser.ParseEnvFloat64
       parser.ParseEnvInt envBurstInvalid okHandler world0
     = Panic (any_error parser.ErrSyntax).
Proof.
  split; [reflexivity|]. split.
  - apply (proj1 (construction_panics_with_reader_error parser.ParseEnvBool
                    parser.ParseEnvFloat64 parser.ParseEnvInt envBothInvalid
                    okHandler world0 eq_refl) 0%Q).
    reflexivity.
  - apply (proj2 (construction_panics_with_reader_error parser.ParseEnvBool
                    parser.ParseEnvFloat64 parser.ParseEnvInt envBurstInvalid
                    okHandler world0 eq_refl) (inject_Z 10) 0).
    + reflexivity.
    + reflexivity.
Defined.

Lemma logging_is_transparent_witness :
  http.panicked
    (LoggingMiddleware sampleSource (panicHandler "boom") writer0
       (requestFrom "192.0.2.1:4711") world0)
  = Some (any_string "boom")
  /\ http.writer
       (LoggingMiddleware sampleSource okHandler writer0
          (requestFrom "192.0.2.1:4711") world0)
     = http.writer (okHandler writer0 (requestFrom "192.0.2.1:4711") world0).
Proof.
  destruct (logging_is_transparent sampleSource (panicHandler "boom") writer0
              (requestFrom "192.0.2.1:4711") world0) as (_ & Hp & _).
  destruct (logging_is_transparent sampleSource okHandler writer0
              (requestFrom "192.0.2.1:4711") world0) as (Hw & _).
  split; [rewrite Hp; reflexivity | rewrite Hw; reflexivity].
Defined.

Lemma logging_forwards_request_witness :
  identifierSeen sampleSource writer0
    (http.WithContext (requestWithID "abc123")
       [(LogRequestIDKey, "forged"); (otherKey "user", "alice")])
    world0
  = identifierSeen sampleSource writer0 (requestWithID "abc123") world0
  /\ identifierSeen sampleSource writer0 (requestWithID "abc123") world0
     = "ext-abc123".
Proof.
  destruct (logging_forwards_request sampleSource writer0
              (requestWithID "abc123") world0)
    as (r' & wd' & _ & _ & _ & _ & _ & _ & _ & Hshadow).
  split; [apply Hshadow | reflexivity].
Defined.

Lemma map_grows_by_requests_witness :
  Forall isRequest (requestsAt "192.0.2.1" [0; 5; 9])
  /\ dom (run singleConfig oneClient (requestsAt "192.0.2.1" [0; 5; 9])).2
     = dom oneClient ∪ identities (requestsAt "192.0.2.1" [0; 5; 9])
  /\ (size (run singleConfig oneClient contendedMixed).2
      <= size oneClient + requests contendedMixed)%nat.
Proof.
  assert (Hall : Forall isRequest (requestsAt "192.0.2.1" [0; 5; 9])).
  { repeat constructor. }
  split; [exact Hall|].
  destruct (map_grows_by_requests singleConfig
              (requestsAt "192.0.2.1" [0; 5; 9]) oneClient) as (_ & _ & Heq).
  destruct (map_grows_by_requests singleConfig contendedMixed oneClient)
    as (Hsize & _).
  split; [by apply Heq | exact Hsize].
Defined.

(** ** The inner handler and the map *)

(** The map after a request does not depend on the inner handler: it is
    the map the critical section leaves for the host of the address,
    whether the inner handler then returns, panics, or is not called. *)
Theorem map_ignores_inner_handler cfg next next' (clients : gmap string client)
    w r wd :
  (rateLimitHandler cfg next clients w r wd).1
  = (rateLimitHandler cfg next' clients w r wd).1
  /\ (rateLimitHandler cfg next clients w r wd).1
     = (allowClient cfg (net.SplitHostPort (http.RemoteAddr r)).1.1 (Now wd)
          clients).2.
Proof.
  unfold rateLimitHandler.
  destruct (net.SplitHostPort (http.RemoteAddr r)) as [[ip port] err].
  cbn [fst snd].
  by destruct (allowClient cfg ip (Now wd) clients) as [[] clients'].
Qed.

(** Logging around the rate limiter: a request that is denied never
    reaches the inner handler, and is logged all the same, started and
    completed, with the 429 response as the only one written. *)
Theorem denied_request_is_logged src cfg next (clients : gmap string client)
    w r wd ip port :
  net.SplitHostPort (http.RemoteAddr r) = (ip, port, None) ->
  (allowClient cfg ip (Now wd) clients).1 = false ->
  let limited : http.Handler :=
    fun w r wd => (rateLimitHandler cfg next clients w r wd).2 in
  let ctx := (requestContext src r wd).1 in
  let res := LoggingMiddleware src limited w r wd in
  http.panicked res = None
  /\ http.Written (http.writer res)
     = (http.Written w ++ [http.mkResponse 429 None])%list
  /\ logged (http.world res)
     = (logged wd
        ++ [slog.mkRecord slog.LevelInfo ctx "request started" [];
            slog.mkRecord slog.LevelInfo ctx "request completed"
              [("request_method", slog.StringValue (http.Method r));
               ("request_url", slog.StringValue (http.URL r));
               ("duration", slog.Int64Value 0)]])%list.
Proof.
  intros Hsplit Hdeny. cbn zeta. rewrite LoggingMiddleware_unfold. cbn zeta.
  destruct (requestContext_logged src r wd) as [Hlog Hclock].
  set (ctx := (requestContext src r wd).1) in *.
  set (wd1 := (requestContext src r wd).2) in *.
  rewrite (rateLimitHandler_parsed cfg next clients w (http.WithContext r ctx)
             (InfoContext wd1 ctx "request started" []) ip port Hsplit).
  cbn [snd]. unfold Now in *. cbn [clock InfoContext]. rewrite Hclock, Hdeny.
  cbn. rewrite Hlog, Hclock, Z.sub_diag, <- app_assoc. done.
Qed.

Lemma denied_request_is_logged_witness :
  net.SplitHostPort (http.RemoteAddr (requestFrom "192.0.2.1:4711"))
  = ("192.0.2.1", "4711", None)
  /\ (allowClient singleConfig "192.0.2.1" (Now world0)
        (allowClient singleConfig "192.0.2.1" 0 ∅).2).1 = false
  /\ http.Written
       (http.writer
          (LoggingMiddleware sampleSource
             (fun w r wd =>
                (rateLimitHandler singleConfig okHandler
                   (allowClient singleConfig "192.0.2.1" 0 ∅).2 w r wd).2)
             writer0 (requestFrom "192.0.2.1:4711") world0))
     = [http.mkResponse 429 None].
Proof.
  split; [reflexivity|]. split; [reflexivity|].
  destruct (denied_request_is_logged sampleSource singleConfig okHandler
              (allowClient singleConfig "192.0.2.1" 0 ∅).2 writer0
              (requestFrom "192.0.2.1:4711") world0 "192.0.2.1" "4711")
    as (_ & Hw & _); [reflexivity | reflexivity |].
  exact Hw.
Defined.
